(** * ECG classification API: the request-to-prediction pipeline of [main.py]

    A shallow embedding of the upload validator, the staging scope, the
    waveform normaliser, the statistics calculator and the route handler of
    [src/main.py], with the properties the specification states about them. *)

From Stdlib Require Import Ascii String ZArith List Reals Lra.
From Stdlib Require PrimFloat Uint63.
From stdpp Require Import gmap strings list pretty.

Local Open Scope string_scope.
Local Open Scope Z_scope.

#[local] Set Warnings "-inexact-float,-register-all,-clear-no-such-hyp".

(** ** Python strings

    [str] values are modelled as [string]; the few [str] methods the handler
    relies on are written out below. *)

Module pystr.

(** [c.lower()] on one character.  Only ASCII letters are folded: no
    character outside ASCII lower-cases to a letter of [.dat] or [.hea],
    so membership of a lower-cased suffix in the allowed set is the same
    as with Python's full Unicode folding. *)
Definition lower_ascii (c : ascii) : ascii :=
  let n := nat_of_ascii c in
  if ((65 <=? n) && (n <=? 90))%nat then ascii_of_nat (n + 32) else c.

(** [s.lower()] *)
Fixpoint lower (s : string) : string :=
  match s with
  | EmptyString => EmptyString
  | String c s' => String (lower_ascii c) (lower s')
  end.

(** [s.rfind(c)], [None] standing for Python's [-1]. *)
Fixpoint rfind (c : ascii) (s : string) : option nat :=
  match s with
  | EmptyString => None
  | String a s' =>
      match rfind c s' with
      | Some i => Some (S i)
      | None => if Ascii.eqb a c then Some 0%nat else None
      end
  end.

(** [s[i:]] and [s[:i]] *)
Fixpoint drop (i : nat) (s : string) : string :=
  match i, s with
  | O, _ => s
  | S i', String _ s' => drop i' s'
  | S _, EmptyString => EmptyString
  end.

Fixpoint take (i : nat) (s : string) : string :=
  match i, s with
  | S i', String a s' => String a (take i' s')
  | _, _ => EmptyString
  end.

(** [s.split(sep)] for a one-character separator: never the empty list. *)
Fixpoint split (sep : ascii) (s : string) : list string :=
  match s with
  | EmptyString => [EmptyString]
  | String a s' =>
      if Ascii.eqb a sep then EmptyString :: split sep s'
      else match split sep s' with
           | w :: ws => String a w :: ws
           | [] => [String a EmptyString]
           end
  end.

(** [sep.join(ws)] *)
Fixpoint join (sep : string) (ws : list string) : string :=
  match ws with
  | [] => EmptyString
  | [w] => w
  | w :: ws' => w ++ sep ++ join sep ws'
  end.

(** [s.startswith(p)] *)
Fixpoint startswith (p s : string) : bool :=
  match p, s with
  | EmptyString, _ => true
  | String a p', String b s' => Ascii.eqb a b && startswith p' s'
  | String _ _, EmptyString => false
  end.

(** [sub in s] *)
Fixpoint contains (sub s : string) : bool :=
  startswith sub s ||
  match s with
  | EmptyString => false
  | String _ s' => contains sub s'
  end.

End pystr.

(** ** [pathlib]

    The pure POSIX paths of the standard library, as far as the handler uses
    them: parsing a string, [/], [str()], [.name], [.suffix] and [.stem]
    (the definitions of CPython 3.4 to 3.12).  A path is its root flag and
    its components; empty and ["."] components are dropped by the parser and
    [".."] components are kept, as [pathlib] does.  (A name that starts
    with exactly two slashes keeps both in [pathlib]; here it has the
    ordinary root, which changes no name, suffix or stem.) *)

Module pathlib.

Record PurePath := mkPath { root : bool; parts : list string }.

Definition keep_part (w : string) : bool :=
  negb (String.eqb w "") && negb (String.eqb w ".").

(** [Path(s)] *)
Definition Path (s : string) : PurePath :=
  {| root := pystr.startswith "/" s;
     parts := List.filter keep_part (pystr.split "/" s) |}.

(** [p / q]: an absolute right operand replaces the left one. *)
Definition truediv (p q : PurePath) : PurePath :=
  if root q then q
  else {| root := root p; parts := parts p ++ parts q |}.

(** [str(p)] *)
Definition str (p : PurePath) : string :=
  match root p, parts p with
  | false, [] => "."
  | false, ws => pystr.join "/" ws
  | true, ws => "/" ++ pystr.join "/" ws
  end.

(** [p.name]: the last component, [''] when there is none. *)
Definition name (p : PurePath) : string := List.last (parts p) "".

(** The index of the dot that starts the suffix of a name:
    [i = name.rfind('.')] when [0 < i < len(name) - 1]. *)
Definition suffix_index (nm : string) : option nat :=
  match pystr.rfind "." nm with
  | Some i =>
      if ((0 <? i) && (i <? String.length nm - 1))%nat then Some i else None
  | None => None
  end.

(** [p.suffix] *)
Definition suffix (p : PurePath) : string :=
  match suffix_index (name p) with
  | Some i => pystr.drop i (name p)
  | None => ""
  end.

(** [p.stem] *)
Definition stem (p : PurePath) : string :=
  match suffix_index (name p) with
  | Some i => pystr.take i (name p)
  | None => name p
  end.

End pathlib.

(** ** Exceptions and results

    What a Python call does is a value or a raised exception.  The handler
    tells [HTTPException] from every other exception; of the latter only
    [str(e)] is ever used. *)

Inductive exn : Type :=
| HTTPException (status_code : Z) (detail : string)
| Exception (str_e : string).

Inductive result (A : Type) : Type :=
| Return (a : A)
| Raise (e : exn).
Arguments Return {A} a.
Arguments Raise {A} e.

Definition bind {A B} (r : result A) (k : A -> result B) : result B :=
  match r with
  | Return a => k a
  | Raise e => Raise e
  end.

Notation "x <- r ;; k" := (bind r (fun x => k))
  (at level 100, r at next level, right associativity).
Notation "r ;;; k" := (bind r (fun _ => k))
  (at level 100, right associativity).

(** [fastapi.status] *)
Definition HTTP_400_BAD_REQUEST : Z := 400.
Definition HTTP_413_REQUEST_ENTITY_TOO_LARGE : Z := 413.
Definition HTTP_500_INTERNAL_SERVER_ERROR : Z := 500.

(** ** Configuration *)

Module config.
Definition EXPECTED_LENGTH : Z := 5000.
Definition ALLOWED_EXTENSIONS : gset string := {[ ".dat"; ".hea" ]}.
Definition MAX_FILE_SIZE : Z := 10 * 1024 * 1024.
End config.

(** ** Uploads

    An [UploadFile] as the handler sees it: the client's file name, the
    [size] attribute (an [Optional[int]]) and the bytes of the spooled
    file. *)

Record UploadFile := mkUpload {
  filename : string;
  size : option Z;
  file : list Byte.byte
}.

(** Python's truth value of an [Optional[int]]. *)
Definition truthy (n : option Z) : bool :=
  match n with
  | None => false
  | Some z => negb (z =? 0)
  end.

(** ** The file validator *)

Section Validator.

(** The order in which a Python [set] of strings is iterated depends on the
    process's string hashing; it only shows in the text of one message. *)
Variable set_iter : gset string -> list string.

(** [Path(f.filename).suffix.lower()] *)
Definition extension (f : UploadFile) : string :=
  pystr.lower (pathlib.suffix (pathlib.Path (filename f))).

(** [{Path(f.filename).suffix.lower() for f in files}] *)
Definition extensions (files : list UploadFile) : gset string :=
  list_to_set (extension <$> files).

Definition no_files_error : exn :=
  HTTPException HTTP_400_BAD_REQUEST "No files uploaded".

Definition extension_error : exn :=
  HTTPException HTTP_400_BAD_REQUEST
    ("Please upload files with extensions: "
       ++ pystr.join ", " (set_iter config.ALLOWED_EXTENSIONS)).

Definition too_large_error (f : UploadFile) : exn :=
  HTTPException HTTP_413_REQUEST_ENTITY_TOO_LARGE
    ("File " ++ filename f ++ " is too large. Max size: "
       ++ pretty (config.MAX_FILE_SIZE `div` (1024 * 1024)) ++ "MB").

(** Lines 78-82: [if not files: raise ...] *)
Definition check_not_empty (files : list UploadFile) : result unit :=
  match files with
  | [] => Raise no_files_error
  | _ :: _ => Return tt
  end.

(** Lines 84-90: the two nested tests on the set of extensions. *)
Definition check_extensions (files : list UploadFile) : result unit :=
  let exts := extensions files in
  if negb (bool_decide
             (config.ALLOWED_EXTENSIONS
                ⊆ exts ∪ set_map (C:=gset string) (D:=gset string)
                           (fun ext => ext) exts))
  then
    if negb (bool_decide
               (set_Exists (fun ext => ext ∈ config.ALLOWED_EXTENSIONS) exts))
    then Raise extension_error
    else Return tt
  else Return tt.

(** [file.size and file.size > config.MAX_FILE_SIZE] *)
Definition too_large (f : UploadFile) : bool :=
  truthy (size f) &&
  match size f with
  | Some z => config.MAX_FILE_SIZE <? z
  | None => false
  end.

(** Lines 92-97: the loop raises at the first file that is too large. *)
Fixpoint check_sizes (files : list UploadFile) : result unit :=
  match files with
  | [] => Return tt
  | f :: rest =>
      if too_large f then Raise (too_large_error f) else check_sizes rest
  end.

Definition validate_files (files : list UploadFile) : result unit :=
  check_not_empty files ;;;
  check_extensions files ;;;
  check_sizes files.

End Validator.

(** ** Arrays of [float64]

    The arithmetic of [numpy] on [float64] is an interface, so that the
    array code below is written once: it is read with IEEE 754 binary64
    (the arithmetic the program runs on) and with the real numbers (the
    arithmetic its specification reasons in). *)

Class Float64 (F : Type) := {
  f_of_nat : nat -> F;          (* an element count, converted for a division *)
  f_add : F -> F -> F;
  f_sub : F -> F -> F;
  f_mul : F -> F -> F;
  f_div : F -> F -> F;
  f_sqrt : F -> F;
  f_maximum : F -> F -> F;      (* np.maximum *)
  f_minimum : F -> F -> F;      (* np.minimum *)
  f_1e_8 : F;                   (* the literal 1e-8 *)
  add_reduce : list F -> F      (* np.add.reduce over the elements, in numpy's order *)
}.

Module np.
Section Arrays.

Context {F : Type} `{Float64 F}.

(** A two-dimensional [ndarray]: its [shape] and its rows.  [shape] is a
    field of its own because an array of no row still has a second
    dimension. *)
Record ndarray := mk_ndarray {
  shape : nat * nat;
  rows : list (list F)
}.

(** The rows agree with the shape. *)
Definition wf (A : ndarray) : Prop :=
  length (rows A) = fst (shape A) /\
  Forall (fun r => length r = snd (shape A)) (rows A).

(** [A.size] *)
Definition size (A : ndarray) : nat := (fst (shape A) * snd (shape A))%nat.

(** [A[i, j]] *)
Definition get (A : ndarray) (i j : nat) : option F :=
  r ← rows A !! i; r !! j.

(** [A.T]: column [j] of [A] becomes row [j]. *)
Definition column (j : nat) (rs : list (list F)) : list F :=
  rs ≫= (fun r => option_list (r !! j)).

Definition T (A : ndarray) : ndarray :=
  {| shape := (snd (shape A), fst (shape A));
     rows := (fun j => column j (rows A)) <$> seq 0 (snd (shape A)) |}.

(** The mean and the standard deviation of a run of elements, as
    [numpy/_core/_methods.py] computes them ([_mean], and [_var] with
    [ddof = 0] followed by a square root). *)
Definition mean1 (xs : list F) : F :=
  f_div (add_reduce xs) (f_of_nat (length xs)).

Definition std1 (xs : list F) : F :=
  let arrmean := f_div (add_reduce xs) (f_of_nat (length xs)) in
  let x := (fun a => f_sub a arrmean) <$> xs in
  let x := (fun a => f_mul a a) <$> x in
  f_sqrt (f_div (add_reduce x) (f_of_nat (length xs))).

(** [A.mean(axis=1, keepdims=True)] and [A.std(axis=1, keepdims=True)]:
    one column, of the reductions of the rows. *)
Definition mean_axis1 (A : ndarray) : ndarray :=
  {| shape := (fst (shape A), 1%nat);
     rows := (fun r : list F => [mean1 r]) <$> rows A |}.

Definition std_axis1 (A : ndarray) : ndarray :=
  {| shape := (fst (shape A), 1%nat);
     rows := (fun r : list F => [std1 r]) <$> rows A |}.

(** [A + c] for a scalar [c] *)
Definition add_scalar (A : ndarray) (c : F) : ndarray :=
  {| shape := shape A;
     rows := (fun r : list F => (fun a => f_add a c) <$> r) <$> rows A |}.

(** Broadcasting of a one-column array against [n] columns: the single
    entry of each row is repeated. *)
Definition stretch (n : nat) (r : list F) : list F :=
  match r with
  | [c] => replicate n c
  | _ => r
  end.

(** [A op C] for [C] of one column and as many rows as [A]: [C] is
    broadcast to the shape of [A] and [op] applied entry by entry. *)
Definition broadcast_col (op : F -> F -> F) (A C : ndarray) : ndarray :=
  {| shape := shape A;
     rows := zip_with (fun r c => zip_with op r (stretch (snd (shape A)) c))
               (rows A) (rows C) |}.

(** [np.mean(A)] and [np.std(A)], over all the elements. *)
Definition mean (A : ndarray) : F := mean1 (concat (rows A)).
Definition std (A : ndarray) : F := std1 (concat (rows A)).

(** [np.max(A)] and [np.min(A)]: the reduction starts from the first
    element and raises on an array of no element. *)
Definition reduce1 (op : F -> F -> F) (what : string) (xs : list F) : result F :=
  match xs with
  | [] => Raise (Exception
            ("zero-size array to reduction operation " ++ what
               ++ " which has no identity"))
  | x :: rest => Return (foldl op x rest)
  end.

Definition max (A : ndarray) : result F :=
  reduce1 f_maximum "maximum" (concat (rows A)).
Definition min (A : ndarray) : result F :=
  reduce1 f_minimum "minimum" (concat (rows A)).

End Arrays.
Arguments ndarray F : clear implicits.
End np.

(** ** The normaliser and the statistics calculator *)

Section Signal.

Context {F : Type} `{Float64 F}.

(** Lines 157-159 of [predict_ecg_file]. *)
Definition normalize (ecg_data : np.ndarray F) : np.ndarray F :=
  np.broadcast_col f_div
    (np.broadcast_col f_sub ecg_data (np.mean_axis1 ecg_data))
    (np.add_scalar (np.std_axis1 ecg_data) f_1e_8).

(** The dictionary [calculate_ecg_stats] returns. *)
Record EcgStats := mkStats {
  num_leads : nat;
  signal_length : nat;
  mean_amplitude : F;
  std_amplitude : F;
  max_amplitude : F;
  min_amplitude : F
}.

Definition calculate_ecg_stats (ecg_data : np.ndarray F) : result EcgStats :=
  let mean_a := np.mean ecg_data in
  let std_a := np.std ecg_data in
  max_a <- np.max ecg_data ;;
  min_a <- np.min ecg_data ;;
  Return {| num_leads := fst (np.shape ecg_data);
            signal_length := snd (np.shape ecg_data);
            mean_amplitude := mean_a;
            std_amplitude := std_a;
            max_amplitude := max_a;
            min_amplitude := min_a |}.

End Signal.
Arguments EcgStats F : clear implicits.

(** *** The two arithmetics *)

(** The real numbers: every operation exact. *)
#[global] Instance real_arith : Float64 R := {|
  f_of_nat := INR;
  f_add := Rplus;
  f_sub := Rminus;
  f_mul := Rmult;
  f_div := Rdiv;
  f_sqrt := R_sqrt.sqrt;
  f_maximum := Rmax;
  f_minimum := Rmin;
  f_1e_8 := (1 / 100000000)%R;
  add_reduce := foldr Rplus 0%R
|}.

(** IEEE 754 binary64, rounding to nearest even.  [np.maximum] and
    [np.minimum] return their first argument when it is larger (smaller)
    than the second or is a NaN, and the second otherwise: on a tie, as
    between the two zeros, the later value is kept.  The literal [1e-8] is
    read, as Python reads it, as the nearest binary64 number.
    [np.add.reduce] is written as a sum from left to right in row order.
    numpy takes a whole array in the order of its memory, which for the
    transposed view of the handler is sample by sample, and adds in pairs
    from eight elements on; the instance is only evaluated on arrays of one
    lead and at most three samples, where the two orders give the same
    sum. *)
Module ieee.
Import PrimFloat.

Definition of_Z (z : Z) : float := PrimFloat.of_uint63 (Uint63.of_Z z).

#[global] Instance binary64 : Float64 float := {|
  f_of_nat := fun n => of_Z (Z.of_nat n);
  f_add := PrimFloat.add;
  f_sub := PrimFloat.sub;
  f_mul := PrimFloat.mul;
  f_div := PrimFloat.div;
  f_sqrt := PrimFloat.sqrt;
  f_maximum := fun a b =>
    if (PrimFloat.ltb b a || PrimFloat.is_nan a)%bool then a else b;
  f_minimum := fun a b =>
    if (PrimFloat.ltb a b || PrimFloat.is_nan a)%bool then a else b;
  f_1e_8 := 1e-8%float;
  add_reduce := foldl PrimFloat.add 0%float
|}.

End ieee.

(** ** The file system, and [tempfile]

    Directories and regular files, keyed by their resolved location: the
    components below the root, with every [".."] step taken.  Symbolic links
    and the process's working directory are not modelled; the handler only
    forms paths from the absolute name of its temporary directory.  Opening
    a path takes its components one at a time, and every place passed on
    the way has to be a directory: [sub/../b] is not opened where [sub] is
    missing, although it resolves to [b]. *)

Module os.

Record FS := mkFS {
  dirs : gset (list string);
  files : gmap (list string) (list Byte.byte)
}.

(** One component taken from the place [at_]. *)
Definition step (at_ : list string) (w : string) : list string :=
  if String.eqb w ".." then removelast at_ else (at_ ++ [w])%list.

Definition resolve (p : pathlib.PurePath) : list string :=
  foldl step [] (pathlib.parts p).

(** The places passed on the way to the last component: where the walk
    stands when each component is taken. *)
Fixpoint walk (at_ : list string) (ws : list string) : list (list string) :=
  match ws with
  | [] => []
  | w :: ws' => at_ :: walk (step at_ w) ws'
  end.

(** [k] is the directory [d] or lies below it. *)
Definition below (d k : list string) : Prop := d `prefix_of` k.

(** [os.mkdir(p)] of a directory that does not exist yet. *)
Definition mkdir (p : pathlib.PurePath) (fs : FS) : FS :=
  {| dirs := {[ resolve p ]} ∪ dirs fs; files := files fs |}.

(** [with open(p, "wb") as f: shutil.copyfileobj(src, f)]: the file is
    created or truncated and receives the bytes; opening fails where a
    place passed on the way is a regular file or is missing, and on a
    directory. *)
Definition write_file (p : pathlib.PurePath) (data : list Byte.byte) (fs : FS)
  : FS * result unit :=
  let k := resolve p in
  match List.find (fun d => bool_decide (d ∉ dirs fs))
                  (walk [] (pathlib.parts p)) with
  | Some d =>
      if decide (is_Some (files fs !! d)) then
        (fs, Raise (Exception
                      ("[Errno 20] Not a directory: '" ++ pathlib.str p ++ "'")))
      else
        (fs, Raise (Exception
                      ("[Errno 2] No such file or directory: '"
                         ++ pathlib.str p ++ "'")))
  | None =>
      if decide (k ∈ dirs fs) then
        (fs, Raise (Exception
                      ("[Errno 21] Is a directory: '" ++ pathlib.str p ++ "'")))
      else if decide (removelast k ∈ dirs fs) then
        ({| dirs := dirs fs; files := <[ k := data ]> (files fs) |}, Return tt)
      else
        (fs, Raise (Exception
                      ("[Errno 2] No such file or directory: '"
                         ++ pathlib.str p ++ "'")))
  end.

(** [shutil.rmtree(p)]: the directory and everything below it go. *)
Definition rmtree (p : pathlib.PurePath) (fs : FS) : FS :=
  {| dirs := filter (fun k => ¬ below (resolve p) k) (dirs fs);
     files := filter (fun kv => ¬ below (resolve p) kv.1) (files fs) |}.

(** Something exists at [k]. *)
Definition exists_at (fs : FS) (k : list string) : Prop :=
  k ∈ dirs fs \/ is_Some (files fs !! k).

End os.

(** Code that runs against the file system: a state and a result. *)
Definition io (A : Type) : Type := os.FS -> os.FS * result A.

Definition io_bind {A B} (m : io A) (k : A -> io B) : io B :=
  fun fs =>
    match m fs with
    | (fs', Return a) => k a fs'
    | (fs', Raise e) => (fs', Raise e)
    end.

Definition io_ret {A} (a : A) : io A := fun fs => (fs, Return a).

(** A step that does not touch the file system. *)
Definition pure {A} (r : result A) : io A := fun fs => (fs, r).

Notation "x <-- m ;; k" := (io_bind m (fun x => k))
  (at level 100, m at next level, right associativity).

(** A call into a collaborator: it returns, or raises an exception that is
    not an [HTTPException] and of which [str(e)] is all the handler uses. *)
Definition call {A} (r : string + A) : result A :=
  match r with
  | inl str_e => Raise (Exception str_e)
  | inr a => Return a
  end.

(** [str(e)]: an [HTTPException] prints as its status and its detail. *)
Definition str_exn (e : exn) : string :=
  match e with
  | HTTPException s d => pretty s ++ ": " ++ d
  | Exception m => m
  end.

(** ** Values exchanged with the collaborators *)

Section Values.

Context {F : Type}.

(** What a Python dictionary of the model's result may hold. *)
Inductive pyvalue : Type :=
| PyNone
| PyStr (s : string)
| PyInt (n : Z)
| PyFloat (x : F).

(** [d[key]]: a [KeyError] prints as the quoted key. *)
Definition getitem (d : gmap string pyvalue) (key : string) : result pyvalue :=
  match d !! key with
  | Some v => Return v
  | None => Raise (Exception ("'" ++ key ++ "'"))
  end.

(** [d.get(key, default)] *)
Definition get (d : gmap string pyvalue) (key : string) (default : pyvalue)
  : pyvalue :=
  match d !! key with
  | Some v => v
  | None => default
  end.

(** A [wfdb.Record], of which the handler reads [p_signal]; the attribute
    is [None] on a record read without physical units. *)
Record Record_ := mkRecord { p_signal : option (np.ndarray F) }.

(** [torch.tensor(a, dtype=torch.float32).unsqueeze(0)]: a batch of one
    matrix.  The conversion of the entries to single precision is left to
    the model that consumes the tensor. *)
Record Tensor := mkTensor { batch : list (np.ndarray F) }.

Definition torch_tensor (a : np.ndarray F) : np.ndarray F := a.
Definition unsqueeze0 (a : np.ndarray F) : Tensor := {| batch := [a] |}.

(** [PredictionResponse] *)
Record PredictionResponse := mkPredictionResponse {
  success : bool;
  predicted_class : pyvalue;
  predicted_class_index : pyvalue;
  confidence : pyvalue;
  ecg_stats : EcgStats F;
  message : string
}.

(** JSON documents: the bodies of the responses. *)
Inductive json : Type :=
| JNull
| JBool (b : bool)
| JInt (n : Z)
| JFloat (x : F)
| JStr (s : string)
| JObject (members : list (string * json)).

(** [obj[key]] of a JSON object, if it has the member. *)
Fixpoint member (key : string) (members : list (string * json)) : option json :=
  match members with
  | [] => None
  | (k, v) :: rest => if String.eqb k key then Some v else member key rest
  end.

Definition json_of_pyvalue (v : pyvalue) : json :=
  match v with
  | PyNone => JNull
  | PyStr s => JStr s
  | PyInt n => JInt n
  | PyFloat x => JFloat x
  end.

Definition json_of_stats (st : EcgStats F) : json :=
  JObject [ ("num_leads", JInt (Z.of_nat (num_leads st)));
            ("signal_length", JInt (Z.of_nat (signal_length st)));
            ("mean_amplitude", JFloat (mean_amplitude st));
            ("std_amplitude", JFloat (std_amplitude st));
            ("max_amplitude", JFloat (max_amplitude st));
            ("min_amplitude", JFloat (min_amplitude st)) ].

Definition json_of_prediction (r : PredictionResponse) : list (string * json) :=
  [ ("success", JBool (success r));
    ("predicted_class", json_of_pyvalue (predicted_class r));
    ("predicted_class_index", json_of_pyvalue (predicted_class_index r));
    ("confidence", json_of_pyvalue (confidence r));
    ("ecg_stats", json_of_stats (ecg_stats r));
    ("message", JStr (message r)) ].

(** [ErrorResponse(success=..., error=..., detail=...).dict()] *)
Definition ErrorResponse (success : bool) (error detail : string)
  : list (string * json) :=
  [ ("success", JBool success); ("error", JStr error); ("detail", JStr detail) ].

(** An HTTP response: status code and JSON body. *)
Record Response := mkResponse {
  status : Z;
  content : list (string * json)
}.

End Values.
Arguments pyvalue F : clear implicits.
Arguments Record_ F : clear implicits.
Arguments Tensor F : clear implicits.
Arguments PredictionResponse F : clear implicits.
Arguments json F : clear implicits.
Arguments Response F : clear implicits.

(** ** The route handler

    Logging is left out: it changes neither the file system nor the
    response. *)

Section Handler.

Context {F : Type} `{Float64 F}.

(** The process and its collaborators: the iteration order of string
    sets, the name [tempfile] picks for a new directory (or the error it
    raises), the waveform reader, the model's [predict] with the loaded
    model applied, and the validation pydantic runs when a
    [PredictionResponse] is constructed. *)
Variable set_iter : gset string -> list string.
Variable mkdtemp : os.FS -> string + string.
Variable rdrecord : os.FS -> string -> string + Record_ F.
Variable predict : Tensor F -> string + gmap string (pyvalue F).
Variable PredictionResponse_init :
  PredictionResponse F -> string + PredictionResponse F.

(** [with tempfile.TemporaryDirectory() as tmpdirname: body]: the
    directory is made on entry and removed with its content on exit,
    whether the body returns or raises. *)
Definition with_TemporaryDirectory {A} (body : string -> io A) : io A :=
  fun fs =>
    match mkdtemp fs with
    | inl str_e => (fs, Raise (Exception str_e))
    | inr tmpdirname =>
        let '(fs', r) := body tmpdirname (os.mkdir (pathlib.Path tmpdirname) fs) in
        (os.rmtree (pathlib.Path tmpdirname) fs', r)
    end.

(** Lines 133-139: the loop that saves the uploads. *)
Fixpoint save_uploaded_files (tmpdirname : string) (files : list UploadFile)
    (filenames : list string) : io (list string) :=
  match files with
  | [] => io_ret filenames
  | uploaded_file :: rest =>
      let filepath :=
        pathlib.truediv (pathlib.Path tmpdirname)
                        (pathlib.Path (filename uploaded_file)) in
      _ <-- os.write_file filepath (file uploaded_file) ;;
      save_uploaded_files tmpdirname rest (filenames ++ [pathlib.str filepath])
  end.

(** [filenames[0]] *)
Definition first (filenames : list string) : result string :=
  match filenames with
  | f :: _ => Return f
  | [] => Raise (Exception "list index out of range")
  end.

(** Lines 142-143: the record path, from the first saved file. *)
Definition record_path_of (tmpdirname filename0 : string) : string :=
  let base_name := pathlib.stem (pathlib.Path filename0) in
  pathlib.str (pathlib.truediv (pathlib.Path tmpdirname) (pathlib.Path base_name)).

(** [record.p_signal.T] *)
Definition p_signal_T (record : Record_ F) : result (np.ndarray F) :=
  match p_signal record with
  | Some a => Return (np.T a)
  | None => Raise (Exception "'NoneType' object has no attribute 'T'")
  end.

(** Lines 146-154: the read, with every exception turned into a 400. *)
Definition read_ecg (record_path : string) : io (np.ndarray F) :=
  fun fs =>
    match (record <- call (rdrecord fs record_path) ;; p_signal_T record) with
    | Return ecg_data => (fs, Return ecg_data)
    | Raise e =>
        (fs, Raise (HTTPException HTTP_400_BAD_REQUEST
                      ("Failed to read ECG files: " ++ str_exn e)))
    end.

(** Lines 127-181: the body of the [try]. *)
Definition predict_ecg_file_try (files : list UploadFile)
  : io (PredictionResponse F) :=
  _ <-- pure (validate_files set_iter files) ;;
  with_TemporaryDirectory (fun tmpdirname =>
    filenames <-- save_uploaded_files tmpdirname files [] ;;
    filename0 <-- pure (first filenames) ;;
    ecg_data <-- read_ecg (record_path_of tmpdirname filename0) ;;
    let ecg_normalized := normalize ecg_data in
    let ecg_tensor := unsqueeze0 (torch_tensor ecg_normalized) in
    result_ <-- pure (call (predict ecg_tensor)) ;;
    stats <-- pure (calculate_ecg_stats ecg_data) ;;
    label <-- pure (getitem result_ "predicted_label") ;;
    index <-- pure (getitem result_ "predicted_class_index") ;;
    pure (call (PredictionResponse_init
                  {| success := true;
                     predicted_class := label;
                     predicted_class_index := index;
                     confidence :=
                       get result_ "confidence" (PyFloat (f_of_nat 0));
                     ecg_stats := stats;
                     message := "ECG classification completed successfully" |}))).

(** Lines 183-190: an [HTTPException] is raised again as it is, any other
    exception becomes an [HTTPException] of status 500 with [str(e)] in
    its detail. *)
Definition predict_ecg_file (files : list UploadFile)
  : io (PredictionResponse F) :=
  fun fs =>
    match predict_ecg_file_try files fs with
    | (fs', Return response) => (fs', Return response)
    | (fs', Raise (HTTPException s d)) => (fs', Raise (HTTPException s d))
    | (fs', Raise (Exception str_e)) =>
        (fs', Raise (HTTPException HTTP_500_INTERNAL_SERVER_ERROR
                       ("Internal server error: " ++ str_e)))
    end.

(** Lines 192-203. *)
Definition global_exception_handler (exc : string) : Response F :=
  {| status := 500;
     content := ErrorResponse false "Internal server error"
                  "An unexpected error occurred" |}.

(** FastAPI's handler of [HTTPException]
    ([fastapi.exception_handlers.http_exception_handler]), which the
    application leaves in place: the status of the exception and the body
    [{"detail": exc.detail}]. *)
Definition http_exception_handler (status_code : Z) (detail : string)
  : Response F :=
  {| status := status_code; content := [ ("detail", JStr detail) ] |}.

(** What the framework answers to what the route handler did: handlers
    are looked up by the class of the exception, so an [HTTPException]
    never reaches the handler registered for [Exception].  The content is
    the value handed to the JSON encoder.  How the encoder writes a float
    that is an infinity or a NaN (as [null], or by failing, which ends in
    [global_exception_handler]) depends on the installed versions of the
    framework and is not part of the source: a returned response stands for
    status 200 only where the statistics are finite. *)
Definition respond (r : result (PredictionResponse F)) : Response F :=
  match r with
  | Return response => {| status := 200; content := json_of_prediction response |}
  | Raise (HTTPException s d) => http_exception_handler s d
  | Raise (Exception str_e) => global_exception_handler str_e
  end.

(** [POST /predict_file], for a request that holds at least one part named
    [files].  The parameter is declared [File(...)], a required field: a
    request without such a part is refused by the framework with status 422
    before the handler is called, so the handler does not run on an empty
    list and what is computed here for [[]] answers no request. *)
Definition post_predict_file (files : list UploadFile) (fs : os.FS)
  : os.FS * Response F :=
  let '(fs', r) := predict_ecg_file files fs in (fs', respond r).

End Handler.

(** ** Test doubles

    A file system with [/tmp], and collaborators with fixed behaviour, to
    run the handler on. *)

Module stub.
Import ieee PrimFloat.

Definition fs0 : os.FS := {| os.dirs := {[ []; ["tmp"] ]}; os.files := ∅ |}.

Definition mkdtemp (fs : os.FS) : string + string := inr "/tmp/tmpk3v9fq1a".

(** Two samples of one lead, as the reader returns them: one row per
    sample. *)
Definition p_signal0 : np.ndarray float :=
  {| np.shape := (2, 1)%nat; np.rows := [[1%float]; [3%float]] |}.

(** A reader that wants the header of the record to be there. *)
Definition rdrecord (fs : os.FS) (record_path : string)
  : string + Record_ float :=
  if decide (is_Some (os.files fs !! os.resolve (pathlib.Path (record_path ++ ".hea"))))
  then inr {| p_signal := Some p_signal0 |}
  else inl ("[Errno 2] No such file or directory: '" ++ record_path ++ ".hea'").

Definition predict (t : Tensor float) : string + gmap string (pyvalue float) :=
  inr (<[ "predicted_label" := PyStr "NORM" ]>
         (<[ "predicted_class_index" := PyInt 0 ]> ∅)).

Definition predict_raises (t : Tensor float)
  : string + gmap string (pyvalue float) :=
  inl "CUDA out of memory".

Definition PredictionResponse_init (r : PredictionResponse float)
  : string + PredictionResponse float := inr r.

Definition record_pair : list UploadFile :=
  [ mkUpload "rec100.dat" (Some 4) [Byte.x10; Byte.x20; Byte.x30; Byte.x40];
    mkUpload "rec100.hea" (Some 2) [Byte.x68; Byte.x64] ].

Definition data_only : list UploadFile :=
  [ mkUpload "rec100.dat" (Some 4) [Byte.x10; Byte.x20; Byte.x30; Byte.x40] ].

Definition with_big_header : list UploadFile :=
  (record_pair ++ [ mkUpload "big.hea" (Some (11 * 1024 * 1024)) [] ])%list.

(** A small file that is not part of a record. *)
Definition plain_text : list UploadFile :=
  [ mkUpload "notes.txt" (Some 5)
      [Byte.x68; Byte.x65; Byte.x6c; Byte.x6c; Byte.x6f] ].

Definition oversized_scan : list UploadFile :=
  [ mkUpload "scan.bin" (Some (15 * 1024 * 1024)) [] ].

Definition header_of_unknown_size : UploadFile :=
  mkUpload "rec100.hea" None [Byte.x68; Byte.x64].

(** One lead of two equal samples, in binary64 and over the reals. *)
Definition flat_lead : np.ndarray float :=
  {| np.shape := (1, 2)%nat; np.rows := [[1%float; 1%float]] |}.

(** One lead of three samples 0.1 (the binary64 number nearest to one
    tenth, written exactly). *)
Definition tenths : np.ndarray float :=
  {| np.shape := (1, 3)%nat;
     np.rows := [[0x1.999999999999ap-4%float; 0x1.999999999999ap-4%float;
                  0x1.999999999999ap-4%float]] |}.

Definition flat_lead_R : np.ndarray R :=
  {| np.shape := (1, 2)%nat; np.rows := [[1%R; 1%R]] |}.

Definition two_leads_R : np.ndarray R :=
  {| np.shape := (2, 2)%nat; np.rows := [[1%R; 3%R]; [2%R; 2%R]] |}.

(** A model whose result lacks the label. *)
Definition predict_without_label (t : Tensor float)
  : string + gmap string (pyvalue float) :=
  inr (<[ "predicted_class_index" := PyInt 0 ]> ∅).

(** A header named with a directory that is not there. *)
Definition in_subdirectory : list UploadFile :=
  [ mkUpload "sub/rec100.hea" (Some 2) [Byte.x68; Byte.x64] ].

(** The file system once the record pair is saved. *)
Definition fs_saved : os.FS :=
  (save_uploaded_files "/tmp/tmpk3v9fq1a" record_pair []
     (os.mkdir (pathlib.Path "/tmp/tmpk3v9fq1a") fs0)).1.

(** The statistics of the lead [1.0, 3.0]. *)
Definition stats0 : EcgStats float :=
  {| num_leads := 1; signal_length := 2;
     mean_amplitude := 2%float; std_amplitude := 1%float;
     max_amplitude := 3%float; min_amplitude := 1%float |}.

Definition response0 : PredictionResponse float :=
  {| success := true;
     predicted_class := PyStr "NORM";
     predicted_class_index := PyInt 0;
     confidence := PyFloat 0%float;
     ecg_stats := stats0;
     message := "ECG classification completed successfully" |}.

(** The handler on these collaborators, [predict] left open. *)
Definition try_ (predict_ : Tensor float -> string + gmap string (pyvalue float)) :=
  predict_ecg_file_try elements mkdtemp rdrecord predict_ PredictionResponse_init.

Definition route (predict_ : Tensor float -> string + gmap string (pyvalue float)) :=
  post_predict_file elements mkdtemp rdrecord predict_ PredictionResponse_init.

Definition tmp_path : list string := ["tmp"; "tmpk3v9fq1a"].

(** What is at or below the temporary directory. *)
Definition staged (fs : os.FS) : list (list string) :=
  List.filter (fun k => bool_decide (tmp_path `prefix_of` k))
    (elements (os.dirs fs) ++ (map_to_list (os.files fs)).*1).

End stub.

(** ** Vocabulary of the specification *)

(** The declared size of [f] is above the cap. *)
Definition exceeds_cap (f : UploadFile) : Prop :=
  exists z, size f = Some z /\ config.MAX_FILE_SIZE < z.

(** The declared size of [f] is absent or zero. *)
Definition unsized (f : UploadFile) : Prop :=
  size f = None \/ size f = Some 0.

(** The extension of [f] is one of the allowed ones. *)
Definition allowed (f : UploadFile) : Prop :=
  extension f ∈ config.ALLOWED_EXTENSIONS.

#[global] Instance allowed_dec (f : UploadFile) : Decision (allowed f) :=
  decide (extension f ∈ config.ALLOWED_EXTENSIONS).

(** What the normaliser is to make of row [r]: each entry less the mean of
    the row, over its standard deviation plus [1e-8]. *)
Definition standardized {F : Type} `{Float64 F} (r : list F) : list F :=
  (fun x => f_div (f_sub x (np.mean1 r)) (f_add (np.std1 r) f_1e_8)) <$> r.

(** Every exception [m] can raise satisfies [P]. *)
Definition raises_only {A} (P : exn -> Prop) (m : io A) : Prop :=
  forall fs fs' e, m fs = (fs', Raise e) -> P e.

(** An exception that is not an [HTTPException]. *)
Definition ordinary (e : exn) : Prop := exists str_e, e = Exception str_e.

(** An [HTTPException] with a client-error status of the handler. *)
Definition client_error (e : exn) : Prop :=
  exists d, e = HTTPException 400 d \/ e = HTTPException 413 d.

(** What the validator looks at in an upload: its name and its declared
    size. *)
Definition declared (f : UploadFile) : string * option Z :=
  (filename f, size f).

(** [f] under the file name [g (filename f)]. *)
Definition renamed (g : string -> string) (f : UploadFile) : UploadFile :=
  mkUpload (g (filename f)) (size f) (file f).

(** A path component as the parser of [pathlib] leaves it: not empty, not
    ["."], without a separator in it. *)
Definition component (w : string) : Prop :=
  pathlib.keep_part w = true /\ pystr.split "/" w = [w].

(** A path all of whose components are such. *)
Definition parsed (p : pathlib.PurePath) : Prop :=
  Forall component (pathlib.parts p).

(** Where upload [u] is saved: the resolved location of
    [Path(tmpdirname) / u.filename]. *)
Definition saved_at (tmpdirname : string) (u : UploadFile) : list string :=
  os.resolve (pathlib.truediv (pathlib.Path tmpdirname)
                              (pathlib.Path (filename u))).

(** The string of the path upload [u] is saved at. *)
Definition saved_name (tmpdirname : string) (u : UploadFile) : string :=
  pathlib.str (pathlib.truediv (pathlib.Path tmpdirname)
                               (pathlib.Path (filename u))).

(** Lines 156-181 as one result: what the handler makes of the signal once it
    is read; none of these steps touches the file system. *)
Definition prediction_of {F : Type} `{Float64 F}
    (predict : Tensor F -> string + gmap string (pyvalue F))
    (PredictionResponse_init :
       PredictionResponse F -> string + PredictionResponse F)
    (ecg_data : np.ndarray F) : result (PredictionResponse F) :=
  result_ <- call (predict (unsqueeze0 (torch_tensor (normalize ecg_data)))) ;;
  stats <- calculate_ecg_stats ecg_data ;;
  label <- getitem result_ "predicted_label" ;;
  index <- getitem result_ "predicted_class_index" ;;
  call (PredictionResponse_init
          {| success := true;
             predicted_class := label;
             predicted_class_index := index;
             confidence := get result_ "confidence" (PyFloat (f_of_nat 0));
             ecg_stats := stats;
             message := "ECG classification completed successfully" |}).

(** The request gets as far as a signal: the uploads are valid, the
    directory [tmpdirname] is made, every upload is saved, which leaves
    the file system [fs1], and the reader returns a record whose
    [p_signal] is [a]. *)
Definition staged_and_read {F : Type}
    (set_iter : gset string -> list string)
    (mkdtemp : os.FS -> string + string)
    (rdrecord : os.FS -> string -> string + Record_ F)
    (files : list UploadFile) (fs : os.FS) (tmpdirname : string)
    (fs1 : os.FS) (a : np.ndarray F) : Prop :=
  validate_files set_iter files = Return tt /\
  mkdtemp fs = inr tmpdirname /\
  exists filenames filename0 record,
    save_uploaded_files tmpdirname files []
      (os.mkdir (pathlib.Path tmpdirname) fs) = (fs1, Return filenames) /\
    first filenames = Return filename0 /\
    rdrecord fs1 (record_path_of tmpdirname filename0) = inr record /\
    p_signal record = Some a.

(** The first of the two keys the handler indexes that [d] lacks. *)
Definition missing_key {F : Type} (d : gmap string (pyvalue F)) : option string :=
  match d !! "predicted_label", d !! "predicted_class_index" with
  | None, _ => Some "predicted_label"
  | Some _, None => Some "predicted_class_index"
  | Some _, Some _ => None
  end.

(** * Properties *)

(** ** Strings *)

Lemma startswith_app (p s : string) : pystr.startswith p (p ++ s) = true.
Proof.
  induction p as [|a p IH]; simpl; [done|].
  by rewrite Ascii.eqb_refl, IH.
Qed.

Lemma contains_startswith (sub s : string) :
  pystr.startswith sub s = true -> pystr.contains sub s = true.
Proof. intros Hs. destruct s; simpl; by rewrite Hs. Qed.

Lemma contains_app (sub pre post : string) :
  pystr.contains sub (pre ++ sub ++ post) = true.
Proof.
  induction pre as [|a pre IH]; simpl.
  - apply contains_startswith. exact (startswith_app sub post).
  - rewrite IH. apply orb_true_r.
Qed.

Lemma startswith_refl (p : string) : pystr.startswith p p = true.
Proof.
  induction p as [|a p IH]; simpl; [done|].
  by rewrite Ascii.eqb_refl, IH.
Qed.

Lemma contains_suffix (sub pre : string) :
  pystr.contains sub (pre ++ sub) = true.
Proof.
  induction pre as [|a pre IH]; simpl.
  - apply contains_startswith, startswith_refl.
  - rewrite IH. apply orb_true_r.
Qed.

(** ** The file validator *)

Section ValidatorFacts.

Variable set_iter : gset string -> list string.

Lemma too_large_iff (f : UploadFile) : too_large f = true <-> exceeds_cap f.
Proof.
  unfold too_large, exceeds_cap, truthy. destruct (size f) as [z|].
  - rewrite andb_true_iff, negb_true_iff, Z.eqb_neq, Z.ltb_lt.
    split.
    + intros [_ Hz]. eauto.
    + intros (z' & [= <-] & Hz). unfold config.MAX_FILE_SIZE in *. lia.
  - split; [done|]. by intros (z & [=] & _).
Qed.

Lemma too_large_unsized (f : UploadFile) : unsized f -> too_large f = false.
Proof. unfold too_large. by intros [-> | ->]. Qed.

Lemma elem_of_extensions (files : list UploadFile) (ext : string) :
  ext ∈ extensions files <-> exists f, f ∈ files /\ extension f = ext.
Proof.
  unfold extensions. rewrite elem_of_list_to_set, list_elem_of_fmap.
  naive_solver.
Qed.

Lemma check_extensions_raises (files : list UploadFile) :
  check_extensions set_iter files = Raise (extension_error set_iter) <->
  forall f, f ∈ files -> extension f ∉ config.ALLOWED_EXTENSIONS.
Proof.
  unfold check_extensions.
  destruct (bool_decide_reflect
              (config.ALLOWED_EXTENSIONS
                 ⊆ extensions files
                   ∪ set_map (C:=gset string) (D:=gset string) (fun ext => ext)
                       (extensions files))) as [Hsub | Hsub]; simpl.
  - split; [done|]. intros Hnone. exfalso.
    assert (".dat" ∈ extensions files) as Hdat.
    { assert (".dat" ∈ config.ALLOWED_EXTENSIONS) as Hin
        by (unfold config.ALLOWED_EXTENSIONS; set_solver).
      apply Hsub in Hin. set_solver. }
    apply elem_of_extensions in Hdat as (f & Hf & Hext).
    apply (Hnone f Hf). rewrite Hext.
    unfold config.ALLOWED_EXTENSIONS. set_solver.
  - destruct (bool_decide_reflect
                (set_Exists (fun ext => ext ∈ config.ALLOWED_EXTENSIONS)
                   (extensions files))) as [Hex | Hex]; simpl.
    + split; [done|]. intros Hnone. exfalso.
      destruct Hex as (ext & Hin & Hall).
      apply elem_of_extensions in Hin as (f & Hf & <-).
      by apply (Hnone f Hf).
    + split; [|done]. intros _ f Hf Hall. apply Hex.
      exists (extension f). split; [|done].
      apply elem_of_extensions. eauto.
Qed.

Lemma check_extensions_cases (files : list UploadFile) :
  check_extensions set_iter files = Raise (extension_error set_iter) \/
  check_extensions set_iter files = Return tt.
Proof. unfold check_extensions. repeat case_match; auto. Qed.

Lemma check_extensions_passes (files : list UploadFile) (f : UploadFile) :
  f ∈ files -> extension f ∈ config.ALLOWED_EXTENSIONS ->
  check_extensions set_iter files = Return tt.
Proof.
  intros Hf Hext.
  destruct (check_extensions_cases files) as [Hr | Hr]; [|done].
  pose proof (proj1 (check_extensions_raises files) Hr) as Hnone.
  by destruct (Hnone f Hf).
Qed.

Lemma check_sizes_raises (files : list UploadFile) (e : exn) :
  check_sizes files = Raise e ->
  exists f, f ∈ files /\ e = too_large_error f.
Proof.
  induction files as [|f rest IH]; simpl; [done|].
  destruct (too_large f).
  - intros [= <-]. exists f. split; [left | done].
  - intros (g & Hg & ->)%IH. exists g. split; [by right | done].
Qed.

Lemma check_sizes_first (files : list UploadFile) :
  Exists exceeds_cap files ->
  exists pre f post,
    files = (pre ++ f :: post)%list /\
    Forall (fun g => ~ exceeds_cap g) pre /\
    exceeds_cap f /\
    check_sizes files = Raise (too_large_error f).
Proof.
  induction files as [|g rest IH]; intros Hex; [by apply Exists_nil in Hex|].
  simpl. destruct (too_large g) eqn:Hg.
  - exists [], g, rest. repeat split; [constructor|by apply too_large_iff].
  - assert (~ exceeds_cap g) as Hng.
    { intros Hc%too_large_iff. congruence. }
    apply Exists_cons in Hex as [Hc | Hex]; [done|].
    destruct (IH Hex) as (pre & f & post & -> & Hpre & Hf & Hr).
    exists (g :: pre), f, post. repeat split; auto.
Qed.

Lemma check_sizes_skips (pre post : list UploadFile) (f : UploadFile) :
  unsized f ->
  check_sizes (pre ++ f :: post) = check_sizes (pre ++ post).
Proof.
  intros Hf. induction pre as [|g pre IH]; simpl.
  - by rewrite (too_large_unsized f Hf).
  - by rewrite IH.
Qed.

Lemma check_sizes_all_unsized (files : list UploadFile) :
  Forall unsized files -> check_sizes files = Return tt.
Proof.
  induction 1 as [|f rest Hf _ IH]; simpl; [done|].
  by rewrite (too_large_unsized f Hf).
Qed.

Lemma too_large_error_names (f : UploadFile) :
  exists d,
    too_large_error f = HTTPException 413 d /\
    d = "File " ++ filename f ++ " is too large. Max size: 10MB" /\
    pystr.contains (filename f) d = true.
Proof.
  eexists. split; [reflexivity|]. split; [reflexivity|].
  apply (contains_app (filename f) "File ").
Qed.

(** With files, none of an allowed extension, the validator raises on
    the extensions. *)
Lemma validate_files_none_allowed (files : list UploadFile) :
  files <> [] ->
  (forall f, f ∈ files -> extension f ∉ config.ALLOWED_EXTENSIONS) ->
  validate_files set_iter files = Raise (extension_error set_iter).
Proof.
  intros Hne Hnone. apply check_extensions_raises in Hnone.
  unfold validate_files. rewrite Hnone. by destruct files.
Qed.

End ValidatorFacts.

(** C4: the extension test of the validator (lines 84-90) raises exactly
    when no uploaded file name has its lower-cased suffix in
    [{.dat, .hea}]; for the validator as a whole this is the error raised
    exactly when, besides, the upload set is not empty (an empty set is
    turned down before, as having no files).  In particular one file with
    one of the two extensions is enough for a set to pass the test. *)
Theorem validate_files_extension_grounds
    (set_iter : gset string -> list string) (files : list UploadFile) :
  (check_extensions set_iter files = Raise (extension_error set_iter) <->
     forall f, f ∈ files -> ~ allowed f) /\
  (validate_files set_iter files = Raise (extension_error set_iter) <->
     files <> [] /\ forall f, f ∈ files -> ~ allowed f) /\
  (forall f, f ∈ files -> allowed f ->
     check_extensions set_iter files = Return tt /\
     validate_files set_iter files <> Raise (extension_error set_iter)).
Proof.
  assert (validate_files set_iter files = Raise (extension_error set_iter) <->
          files <> [] /\ forall f, f ∈ files -> ~ allowed f) as Hwhole.
  { destruct files as [|f0 rest].
    - split; [|by intros [? _]]. simpl. by intros [=].
    - unfold validate_files. simpl check_not_empty. simpl bind.
      rewrite <- (check_extensions_raises set_iter).
      destruct (check_extensions_cases set_iter (f0 :: rest)) as [-> | ->];
        simpl bind.
      + split; [done | by intros [_ ?]].
      + split; [|by intros [_ ?]].
        intros Hs. apply (check_sizes_raises (f0 :: rest)) in Hs as (g & _ & Hg).
        discriminate Hg. }
  split; [apply check_extensions_raises|]. split; [exact Hwhole|].
  intros f Hf Hallowed. split.
  - by apply (check_extensions_passes set_iter files f).
  - intros [_ Hnone]%Hwhole. by apply (Hnone f).
Qed.

(** C7, as the code has it: an upload set in which some file has an allowed
    extension and some file has a declared size above 10 MiB is turned down
    with status 413, and the detail names the first file above the cap. *)
Theorem validate_files_too_large
    (set_iter : gset string -> list string) (files : list UploadFile) :
  Exists allowed files ->
  Exists exceeds_cap files ->
  exists pre f post,
    files = (pre ++ f :: post)%list /\
    Forall (fun g => ~ exceeds_cap g) pre /\
    exceeds_cap f /\
    validate_files set_iter files =
      Raise (HTTPException HTTP_413_REQUEST_ENTITY_TOO_LARGE
               ("File " ++ filename f ++ " is too large. Max size: 10MB")) /\
    pystr.contains (filename f)
      ("File " ++ filename f ++ " is too large. Max size: 10MB") = true.
Proof.
  intros Hallowed Hbig.
  destruct (check_sizes_first files Hbig) as (pre & f & post & Hfiles & Hpre & Hf & Hr).
  exists pre, f, post. repeat split; try done.
  - apply Exists_exists in Hallowed as (g & Hg & Hext).
    unfold validate_files.
    rewrite (check_extensions_passes set_iter files g Hg Hext).
    destruct files; [by destruct pre|]. simpl bind. exact Hr.
  - apply (contains_app (filename f) "File ").
Qed.

Lemma validate_files_too_large_witness :
  exists pre f post,
    stub.with_big_header = (pre ++ f :: post)%list /\
    Forall (fun g => ~ exceeds_cap g) pre /\
    exceeds_cap f /\
    validate_files elements stub.with_big_header =
      Raise (HTTPException HTTP_413_REQUEST_ENTITY_TOO_LARGE
               ("File " ++ filename f ++ " is too large. Max size: 10MB")) /\
    pystr.contains (filename f)
      ("File " ++ filename f ++ " is too large. Max size: 10MB") = true.
Proof.
  apply (validate_files_too_large elements).
  - apply Exists_cons_hd. unfold allowed. vm_compute. set_solver.
  - apply Exists_cons_tl, Exists_cons_tl, Exists_cons_hd.
    exists (11 * 1024 * 1024). split; [reflexivity | reflexivity].
Defined.

(** C7, as the specification has it, fails: a single file of 15 MiB whose
    extension is not an allowed one is turned down with status 400, on its
    extension, and the size test is never reached. *)
Lemma oversized_scan_is_400 :
  Exists exceeds_cap stub.oversized_scan /\
  forall set_iter,
    validate_files set_iter stub.oversized_scan =
      Raise (HTTPException 400
               ("Please upload files with extensions: "
                  ++ pystr.join ", " (set_iter config.ALLOWED_EXTENSIONS))) /\
    forall d, validate_files set_iter stub.oversized_scan
              <> Raise (HTTPException 413 d).
Proof.
  split.
  - apply Exists_cons_hd. exists (15 * 1024 * 1024). split; reflexivity.
  - intros set_iter.
    assert (validate_files set_iter stub.oversized_scan
            = Raise (extension_error set_iter)) as Hr.
    { apply validate_files_none_allowed; [done|].
      intros f ->%list_elem_of_singleton. vm_compute. set_solver. }
    split; [exact Hr|]. intros d. rewrite Hr. discriminate.
Qed.

(** C10: a file whose declared size is absent or zero never makes the size
    test fail, whatever bytes it holds: the loop over the files goes past
    it, and an upload set of such files that is not empty and has an
    allowed extension is accepted. *)
Theorem validate_files_unsized
    (set_iter : gset string -> list string) (f : UploadFile) :
  unsized f ->
  too_large f = false /\
  (forall pre post,
     check_sizes (pre ++ f :: post) = check_sizes (pre ++ post)) /\
  (forall content,
     too_large (mkUpload (filename f) (size f) content) = false) /\
  (forall files,
     f ∈ files -> Forall unsized files -> Exists allowed files ->
     validate_files set_iter files = Return tt).
Proof.
  intros Hf. split; [by apply too_large_unsized|].
  split; [intros pre post; by apply check_sizes_skips|].
  split; [intros content; by apply too_large_unsized|].
  intros files Hin Hall Hex.
  apply Exists_exists in Hex as (g & Hg & Hext).
  unfold validate_files.
  rewrite (check_extensions_passes set_iter files g Hg Hext).
  rewrite (check_sizes_all_unsized files Hall).
  destruct files; [by apply elem_of_nil in Hin | done].
Qed.

Lemma validate_files_unsized_witness :
  too_large stub.header_of_unknown_size = false /\
  (forall pre post,
     check_sizes (pre ++ stub.header_of_unknown_size :: post)
       = check_sizes (pre ++ post)) /\
  (forall content,
     too_large (mkUpload (filename stub.header_of_unknown_size)
                  (size stub.header_of_unknown_size) content) = false) /\
  (forall files,
     stub.header_of_unknown_size ∈ files -> Forall unsized files ->
     Exists allowed files ->
     validate_files elements files = Return tt).
Proof.
  apply (validate_files_unsized elements stub.header_of_unknown_size).
  left. reflexivity.
Defined.

(** ** The normaliser, in any arithmetic *)

Section NormalizeFacts.

Context {F : Type} `{Float64 F}.


Lemma broadcast_col_rows (op : F -> F -> F) (f : list F -> list F)
    (g : list F -> F) (n : nat) (rs : list (list F)) :
  Forall (fun r => length (f r) = n) rs ->
  zip_with (fun r c => zip_with op r (np.stretch n c)) (f <$> rs)
           ((fun r : list F => [g r]) <$> rs)
  = (fun r : list F => (fun x => op x (g r)) <$> f r) <$> rs.
Proof.
  induction 1 as [|r rs Hr _ IH]; [done|].
  rewrite !fmap_cons. simpl zip_with at 1.
  rewrite IH. f_equal. by apply zip_with_replicate_r_eq.
Qed.

Lemma normalize_rows (W : np.ndarray F) :
  np.wf W -> np.rows (normalize W) = standardized <$> np.rows W.
Proof.
  intros [_ Hrows]. unfold normalize, np.broadcast_col; simpl.
  rewrite <- (list_fmap_id (np.rows W)) at 1.
  rewrite (broadcast_col_rows f_sub Datatypes.id np.mean1) by exact Hrows.
  rewrite <- list_fmap_compose.
  change ((fun r : list F => (fun a => f_add a f_1e_8) <$> r)
            ∘ (fun r : list F => [np.std1 r]))
    with (fun r : list F => [f_add (np.std1 r) f_1e_8]).
  rewrite (broadcast_col_rows f_div
             (fun r => (fun x => f_sub x (np.mean1 r)) <$> Datatypes.id r)
             (fun r => f_add (np.std1 r) f_1e_8)).
  - apply list_fmap_ext. intros _ r _. unfold standardized, Datatypes.id.
    by rewrite <- list_fmap_compose.
  - eapply Forall_impl; [exact Hrows|]. intros r Hr. simpl.
    by rewrite length_fmap.
Qed.

Lemma normalize_wf (W : np.ndarray F) : np.wf W -> np.wf (normalize W).
Proof.
  intros HW. pose proof HW as [Hlen Hrows]. split.
  - rewrite (normalize_rows W HW), length_fmap. exact Hlen.
  - rewrite (normalize_rows W HW). apply Forall_fmap.
    eapply Forall_impl; [exact Hrows|].
    intros r Hr. simpl. unfold standardized. by rewrite length_fmap.
Qed.

Lemma normalize_get (W : np.ndarray F) (i j : nat) :
  np.wf W ->
  np.get (normalize W) i j =
    (r ← np.rows W !! i; x ← r !! j;
     Some (f_div (f_sub x (np.mean1 r)) (f_add (np.std1 r) f_1e_8))).
Proof.
  intros HW. unfold np.get.
  rewrite (normalize_rows W HW), list_lookup_fmap.
  destruct (np.rows W !! i) as [r|]; simpl; [|done].
  unfold standardized. rewrite list_lookup_fmap.
  by destruct (r !! j).
Qed.

End NormalizeFacts.

(** C8: the normaliser keeps the shape of a matrix, and entry [(i, j)] of
    its output is [(W[i,j] - mean of row i) / (std of row i + 1e-8)], in
    whichever arithmetic the operations are read; the constant added to the
    standard deviation is [1e-8]: the real number, and in [float64] the
    correctly rounded quotient of 1 by [10^8]. *)
Theorem normalize_entrywise {F : Type} `{Float64 F} (W : np.ndarray F) :
  np.wf W ->
  np.shape (normalize W) = np.shape W /\
  np.wf (normalize W) /\
  (forall i j,
     np.get (normalize W) i j =
       (r ← np.rows W !! i; x ← r !! j;
        Some (f_div (f_sub x (np.mean1 r)) (f_add (np.std1 r) f_1e_8)))) /\
  f_1e_8 (F := R) = (/ 10 ^ 8)%R /\
  PrimFloat.eqb (f_1e_8 (F := PrimFloat.float))
    (PrimFloat.div (ieee.of_Z 1) (ieee.of_Z (10 ^ 8))) = true.
Proof.
  intros HW. split; [done|]. split; [by apply normalize_wf|].
  split; [intros i j; by apply normalize_get|].
  split; [simpl; lra | reflexivity].
Qed.

Lemma normalize_entrywise_witness :
  np.shape (normalize stub.flat_lead) = np.shape stub.flat_lead /\
  np.wf (normalize stub.flat_lead) /\
  (forall i j,
     np.get (normalize stub.flat_lead) i j =
       (r ← np.rows stub.flat_lead !! i; x ← r !! j;
        Some (f_div (f_sub x (np.mean1 r)) (f_add (np.std1 r) f_1e_8)))) /\
  f_1e_8 (F := R) = (/ 10 ^ 8)%R /\
  PrimFloat.eqb (f_1e_8 (F := PrimFloat.float))
    (PrimFloat.div (ieee.of_Z 1) (ieee.of_Z (10 ^ 8))) = true.
Proof.
  apply (normalize_entrywise stub.flat_lead).
  split; [reflexivity | repeat constructor].
Defined.

(** ** Exact arithmetic: sums, means and deviations of real numbers *)

Section RealFacts.

Local Open Scope R_scope.

#[local] Abbreviation sum := (foldr Rplus 0).

Lemma INR_length_pos {A} (xs : list A) : xs <> [] -> 0 < INR (length xs).
Proof.
  intros Hne. apply lt_0_INR. destruct xs; [done | simpl; lia].
Qed.

Lemma sum_shift_scale (m d : R) (xs : list R) :
  sum ((fun x => (x - m) / d) <$> xs) = (sum xs - INR (length xs) * m) / d.
Proof.
  induction xs as [|x xs IH].
  - simpl. unfold Rdiv. ring.
  - rewrite fmap_cons. cbn [foldr length]. rewrite IH, S_INR.
    unfold Rdiv. ring.
Qed.

Lemma sum_squares_scale (m d : R) (xs : list R) :
  d <> 0 ->
  sum ((fun a => a * a) <$> ((fun a => a - 0) <$> ((fun x => (x - m) / d) <$> xs)))
  = sum ((fun a => a * a) <$> ((fun a => a - m) <$> xs)) / (d * d).
Proof.
  intros Hd. induction xs as [|x xs IH].
  - simpl. unfold Rdiv. ring.
  - rewrite !fmap_cons. cbn [foldr]. rewrite IH. field. exact Hd.
Qed.

Lemma sum_squares_nonneg (xs : list R) : 0 <= sum ((fun a => a * a) <$> xs).
Proof.
  induction xs as [|x xs IH]; [simpl; lra|].
  rewrite fmap_cons. cbn [foldr].
  pose proof (Rle_0_sqr x) as Hx. unfold Rsqr in Hx. lra.
Qed.

Lemma sum_bounds (lo hi : R) (xs : list R) :
  Forall (fun x => lo <= x <= hi) xs ->
  INR (length xs) * lo <= sum xs <= INR (length xs) * hi.
Proof.
  induction 1 as [|x xs Hx _ IH].
  - simpl. lra.
  - cbn [foldr length]. rewrite S_INR. lra.
Qed.

Lemma sum_constant (c : R) (xs : list R) :
  Forall (fun x => x = c) xs -> sum xs = INR (length xs) * c.
Proof.
  induction 1 as [|x xs -> _ IH].
  - simpl. lra.
  - cbn [foldr length]. rewrite S_INR, IH. lra.
Qed.

Lemma std1_nonneg (xs : list R) : 0 <= np.std1 xs.
Proof. unfold np.std1. simpl. apply sqrt_pos. Qed.

Lemma mean1_bounds (lo hi : R) (xs : list R) :
  xs <> [] -> Forall (fun x => lo <= x <= hi) xs ->
  lo <= np.mean1 xs <= hi.
Proof.
  intros Hne Hall. pose proof (INR_length_pos xs Hne) as Hn.
  destruct (sum_bounds lo hi xs Hall) as [Hlo Hhi].
  unfold np.mean1. simpl.
  set (q := sum xs / INR (length xs)).
  assert (sum xs = INR (length xs) * q) as Hq by (unfold q; field; lra).
  rewrite Hq in Hlo, Hhi.
  split; apply (Rmult_le_reg_l (INR (length xs))); lra.
Qed.

Lemma mean1_constant (c : R) (xs : list R) :
  xs <> [] -> Forall (fun x => x = c) xs -> np.mean1 xs = c.
Proof.
  intros Hne Hall. pose proof (INR_length_pos xs Hne) as Hn.
  unfold np.mean1. simpl. rewrite (sum_constant c xs Hall). field. lra.
Qed.

Lemma std1_constant (c : R) (xs : list R) :
  xs <> [] -> Forall (fun x => x = c) xs -> np.std1 xs = 0.
Proof.
  intros Hne Hall. pose proof (INR_length_pos xs Hne) as Hn.
  pose proof (mean1_constant c xs Hne Hall) as Hm.
  unfold np.mean1 in Hm. unfold np.std1. simpl in *. rewrite Hm.
  assert (sum ((fun a => a * a) <$> ((fun a => a - c) <$> xs)) = 0) as ->.
  { clear Hm Hn Hne. induction Hall as [|x xs -> _ IH]; [done|].
    rewrite !fmap_cons. cbn [foldr]. rewrite IH. ring. }
  unfold Rdiv. rewrite Rmult_0_l. apply sqrt_0.
Qed.

(** The mean and the deviation of a standardised row. *)
Lemma standardized_mean (r : list R) :
  r <> [] -> np.mean1 (standardized r) = 0.
Proof.
  intros Hne. pose proof (INR_length_pos r Hne) as Hn.
  assert (INR (length r) * np.mean1 r = sum r) as Hm.
  { unfold np.mean1. simpl. field. lra. }
  unfold standardized.
  set (m := np.mean1 r) in *. set (s := np.std1 r).
  unfold np.mean1. simpl.
  rewrite sum_shift_scale, length_fmap.
  replace (sum r - INR (length r) * m) with 0 by lra.
  unfold Rdiv. ring.
Qed.

Lemma standardized_std (r : list R) :
  r <> [] ->
  np.std1 (standardized r) = np.std1 r / (np.std1 r + 1 / 100000000).
Proof.
  intros Hne. pose proof (INR_length_pos r Hne) as Hn.
  pose proof (std1_nonneg r) as Hs.
  pose proof (standardized_mean r Hne) as Hm.
  assert (np.std1 r =
          sqrt (sum ((fun a => a * a) <$> ((fun a => a - np.mean1 r) <$> r))
                  / INR (length r))) as Hsr by reflexivity.
  assert (np.std1 (standardized r) =
          sqrt (sum ((fun a => a * a)
                       <$> ((fun a => a - np.mean1 (standardized r))
                              <$> standardized r))
                  / INR (length (standardized r)))) as -> by reflexivity.
  rewrite Hm. unfold standardized at 1 2.
  change (f_add (np.std1 r) f_1e_8) with (np.std1 r + 1 / 100000000).
  change (fun x : R => f_div (f_sub x (np.mean1 r)) (np.std1 r + 1 / 100000000))
    with (fun x : R => (x - np.mean1 r) / (np.std1 r + 1 / 100000000)).
  set (d := np.std1 r + 1 / 100000000).
  assert (0 < d) as Hd by (unfold d; lra).
  rewrite sum_squares_scale by lra. rewrite length_fmap.
  set (S := sum ((fun a => a * a) <$> ((fun a => a - np.mean1 r) <$> r))) in *.
  replace (S / (d * d) / INR (length r))
    with (S / INR (length r) / (d * d)) by (field; lra).
  rewrite sqrt_div_alt by nra.
  rewrite sqrt_square by lra. by rewrite <- Hsr.
Qed.

End RealFacts.

Section RealStatistics.

Local Open Scope R_scope.

Lemma foldl_Rmax_bounds (a : R) (l : list R) :
  a <= foldl Rmax a l /\ Forall (fun y => y <= foldl Rmax a l) l.
Proof.
  revert a. induction l as [|y l IH]; intros a; simpl.
  - split; [lra | constructor].
  - destruct (IH (Rmax a y)) as [Hhd Hall].
    pose proof (Rmax_l a y). pose proof (Rmax_r a y).
    split; [lra|]. constructor; [lra | exact Hall].
Qed.

Lemma foldl_Rmin_bounds (a : R) (l : list R) :
  foldl Rmin a l <= a /\ Forall (fun y => foldl Rmin a l <= y) l.
Proof.
  revert a. induction l as [|y l IH]; intros a; simpl.
  - split; [lra | constructor].
  - destruct (IH (Rmin a y)) as [Hhd Hall].
    pose proof (Rmin_l a y). pose proof (Rmin_r a y).
    split; [lra|]. constructor; [lra | exact Hall].
Qed.

Lemma length_concat_rows {A} (m : nat) (rs : list (list A)) :
  Forall (fun r => length r = m) rs ->
  length (concat rs) = (length rs * m)%nat.
Proof.
  induction 1 as [|r rs Hr _ IH]; simpl; [done|].
  rewrite length_app, IH, Hr. done.
Qed.

Lemma get_elem_of_concat {A} (W : np.ndarray A) (i j : nat) (x : A) :
  np.get W i j = Some x -> x ∈ concat (np.rows W).
Proof.
  unfold np.get. destruct (np.rows W !! i) as [r|] eqn:Hr; simpl; [|done].
  intros Hx. apply list_elem_of_In, in_concat. exists r.
  split; apply list_elem_of_In; eapply list_elem_of_lookup_2; eauto.
Qed.

End RealStatistics.

(** The dimensions and the four scalars a returned [EcgStats] holds, in any
    arithmetic. *)
Lemma calculate_ecg_stats_fields {F : Type} `{Float64 F}
    (A : np.ndarray F) (st : EcgStats F) :
  calculate_ecg_stats A = Return st ->
  num_leads st = fst (np.shape A) /\
  signal_length st = snd (np.shape A) /\
  mean_amplitude st = np.mean A /\
  std_amplitude st = np.std A /\
  np.max A = Return (max_amplitude st) /\
  np.min A = Return (min_amplitude st).
Proof.
  unfold calculate_ecg_stats.
  destruct (np.max A) as [mx|]; [|done].
  destruct (np.min A) as [mn|]; [|done].
  simpl. by intros [= <-].
Qed.

(** C3, as the code has it, in exact arithmetic: every row of the
    normalised matrix has mean 0, and its standard deviation is
    [s / (s + 1e-8)] for [s] the standard deviation of the row before: a
    number in [0, 1), short of 1 by [1e-8 / (s + 1e-8)].  A constant row
    has [s = 0]: nothing is divided by zero, the row becomes all zeros and
    its standard deviation is 0. *)
Theorem normalize_rows_standardized (W : np.ndarray R) (i : nat) (r : list R) :
  np.wf W ->
  (1 <= snd (np.shape W))%nat ->
  np.rows W !! i = Some r ->
  exists r',
    np.rows (normalize W) !! i = Some r' /\
    np.mean1 r' = 0%R /\
    np.std1 r' = (np.std1 r / (np.std1 r + 1 / 100000000))%R /\
    (0 <= np.std1 r' < 1)%R /\
    (1 - np.std1 r' = (1 / 100000000) / (np.std1 r + 1 / 100000000))%R /\
    (forall c, Forall (fun x => x = c) r ->
               np.std1 r' = 0%R /\ Forall (fun y => y = 0%R) r').
Proof.
  intros HW Hcols Hr.
  assert (r <> []) as Hne.
  { destruct HW as [_ Hrows].
    pose proof (proj1 (Forall_lookup _ _) Hrows i r Hr) as Hlen.
    simpl in Hlen. intros ->. simpl in Hlen. lia. }
  exists (standardized r).
  pose proof (std1_nonneg r) as Hs.
  pose proof (standardized_std r Hne) as Hstd.
  split; [by rewrite (normalize_rows W HW), list_lookup_fmap, Hr|].
  split; [by apply standardized_mean|].
  split; [exact Hstd|].
  set (s := np.std1 r) in *. set (d := (s + 1 / 100000000)%R) in *.
  assert (0 < d)%R as Hd by (unfold d; lra).
  set (q := (s / d)%R) in *.
  assert (s = d * q)%R as Hq by (unfold q; field; lra).
  split; [|split].
  - rewrite Hstd. split.
    + apply (Rmult_le_reg_l d); lra.
    + apply (Rmult_lt_reg_l d); [lra|]. unfold d in *. lra.
  - rewrite Hstd. unfold q. unfold d. field. fold d. lra.
  - intros c Hc.
    pose proof (std1_constant c r Hne Hc) as Hs0. fold s in Hs0.
    pose proof (mean1_constant c r Hne Hc) as Hm0.
    split.
    + rewrite Hstd. unfold q. rewrite Hs0. unfold Rdiv. ring.
    + unfold standardized. apply Forall_fmap.
      eapply Forall_impl; [exact Hc|]. intros x ->.
      change ((c - np.mean1 r) / (np.std1 r + 1 / 100000000) = 0)%R.
      rewrite Hm0. unfold Rdiv. ring.
Qed.

Lemma normalize_rows_standardized_witness :
  exists r',
    np.rows (normalize stub.two_leads_R) !! 0%nat = Some r' /\
    np.mean1 r' = 0%R /\
    np.std1 r' = (np.std1 [1; 3] / (np.std1 [1; 3] + 1 / 100000000))%R /\
    (0 <= np.std1 r' < 1)%R /\
    (1 - np.std1 r' = (1 / 100000000) / (np.std1 [1; 3] + 1 / 100000000))%R /\
    (forall c, Forall (fun x => x = c) [1; 3]%R ->
               np.std1 r' = 0%R /\ Forall (fun y => y = 0%R) r').
Proof.
  apply (normalize_rows_standardized stub.two_leads_R 0 [1; 3]%R).
  - split; [reflexivity | repeat constructor].
  - simpl. lia.
  - reflexivity.
Defined.

(** C3, as the specification has it, fails on a constant lead: the two
    samples [1.0, 1.0] are normalised to [0.0, 0.0], whose standard
    deviation is 0 and not near 1, with binary64 as with exact
    arithmetic. *)
Lemma flat_lead_has_no_unit_deviation :
  (np.rows (normalize stub.flat_lead) = [[ieee.of_Z 0; ieee.of_Z 0]] /\
   np.std1 [ieee.of_Z 0; ieee.of_Z 0] = ieee.of_Z 0 /\
   PrimFloat.abs (PrimFloat.sub (np.std1 [ieee.of_Z 0; ieee.of_Z 0]) (ieee.of_Z 1))
     = ieee.of_Z 1) /\
  (exists r',
     np.rows (normalize stub.flat_lead_R) = [r'] /\
     np.std1 r' = 0%R /\
     Rabs (np.std1 r' - 1) = 1%R).
Proof.
  split.
  - repeat split; vm_compute; reflexivity.
  - assert (np.wf stub.flat_lead_R) as HW
      by (split; [reflexivity | repeat constructor]).
    assert ([1; 1]%R <> []) as Hne by done.
    assert (Forall (fun x => x = 1%R) [1; 1]%R) as Hc by (repeat constructor).
    assert (np.std1 (standardized [1; 1]%R) = 0%R) as H0.
    { rewrite (standardized_std _ Hne), (std1_constant 1 _ Hne Hc).
      unfold Rdiv. ring. }
    exists (standardized [1; 1]%R).
    split; [by rewrite (normalize_rows _ HW)|]. split; [exact H0|].
    rewrite H0. unfold Rabs. destruct (Rcase_abs (0 - 1)); lra.
Qed.

(** C9, as the code has it: the statistics of a matrix with at least one
    entry are returned, with [num_leads] and [signal_length] the two
    dimensions of the matrix (in any arithmetic) and the four scalars
    taken over all the entries at once; in exact arithmetic the minimum and
    the maximum bound every entry, [min <= mean <= max] and [std >= 0]. *)
Theorem calculate_ecg_stats_exact (W : np.ndarray R) :
  np.wf W ->
  np.size W <> 0%nat ->
  exists st,
    calculate_ecg_stats W = Return st /\
    num_leads st = fst (np.shape W) /\
    signal_length st = snd (np.shape W) /\
    (min_amplitude st <= mean_amplitude st <= max_amplitude st)%R /\
    (0 <= std_amplitude st)%R /\
    (forall i j x, np.get W i j = Some x ->
                   (min_amplitude st <= x <= max_amplitude st)%R) /\
    mean_amplitude st
      = (foldr Rplus 0 (concat (np.rows W)) / INR (np.size W))%R /\
    std_amplitude st = np.std1 (concat (np.rows W)) /\
    (forall (F : Type) (arith : Float64 F) (A : np.ndarray F) (st' : EcgStats F),
       calculate_ecg_stats A = Return st' ->
       num_leads st' = fst (np.shape A) /\
       signal_length st' = snd (np.shape A)).
Proof.
  intros HW Hsize.
  assert (length (concat (np.rows W)) = np.size W) as Hlen.
  { destruct HW as [Hn Hrows].
    rewrite (length_concat_rows _ _ Hrows), Hn. reflexivity. }
  destruct (concat (np.rows W)) as [|x rest] eqn:Hxs;
    [simpl in Hlen; congruence|].
  destruct (foldl_Rmax_bounds x rest) as [Hmax_hd Hmax].
  destruct (foldl_Rmin_bounds x rest) as [Hmin_hd Hmin].
  assert (Forall (fun y => foldl Rmin x rest <= y <= foldl Rmax x rest)%R
            (x :: rest)) as Hall.
  { constructor; [lra|].
    apply Forall_forall. intros y Hy.
    pose proof (proj1 (Forall_forall _ _) Hmax y Hy).
    pose proof (proj1 (Forall_forall _ _) Hmin y Hy). simpl in *. lra. }
  exists {| num_leads := fst (np.shape W);
            signal_length := snd (np.shape W);
            mean_amplitude := np.mean W;
            std_amplitude := np.std W;
            max_amplitude := foldl Rmax x rest;
            min_amplitude := foldl Rmin x rest |}.
  split.
  { unfold calculate_ecg_stats, np.max, np.min. rewrite Hxs. reflexivity. }
  split; [done|]. split; [done|]. cbn [mean_amplitude std_amplitude
                                        max_amplitude min_amplitude].
  split.
  { unfold np.mean. rewrite Hxs. by apply mean1_bounds. }
  split; [apply std1_nonneg|].
  split.
  { intros i j y Hy. apply get_elem_of_concat in Hy. rewrite Hxs in Hy.
    exact (proj1 (Forall_forall _ _) Hall y Hy). }
  split.
  { unfold np.mean, np.mean1. rewrite Hxs, Hlen. reflexivity. }
  split; [unfold np.std; by rewrite Hxs|].
  intros F arith A st' Hst.
  destruct (calculate_ecg_stats_fields A st' Hst) as (? & ? & _). done.
Qed.

Lemma calculate_ecg_stats_exact_witness :
  exists st,
    calculate_ecg_stats stub.two_leads_R = Return st /\
    num_leads st = 2%nat /\
    signal_length st = 2%nat /\
    (min_amplitude st <= mean_amplitude st <= max_amplitude st)%R /\
    (0 <= std_amplitude st)%R /\
    (forall i j x, np.get stub.two_leads_R i j = Some x ->
                   (min_amplitude st <= x <= max_amplitude st)%R) /\
    mean_amplitude st
      = (foldr Rplus 0 (concat (np.rows stub.two_leads_R))
           / INR (np.size stub.two_leads_R))%R /\
    std_amplitude st = np.std1 (concat (np.rows stub.two_leads_R)) /\
    (forall (F : Type) (arith : Float64 F) (A : np.ndarray F) (st' : EcgStats F),
       calculate_ecg_stats A = Return st' ->
       num_leads st' = fst (np.shape A) /\
       signal_length st' = snd (np.shape A)).
Proof.
  apply (calculate_ecg_stats_exact stub.two_leads_R).
  - split; [reflexivity | repeat constructor].
  - vm_compute. lia.
Defined.

(** C9, as the specification has it, fails in the arithmetic the program
    runs on: for one lead of three samples 0.1 the binary64 sum is
    0.30000000000000004 and the mean 0.10000000000000002, above the maximum
    0.1. *)
Lemma tenths_mean_exceeds_max :
  exists st,
    calculate_ecg_stats stub.tenths = Return st /\
    num_leads st = 1%nat /\ signal_length st = 3%nat /\
    max_amplitude st = PrimFloat.div (ieee.of_Z 1) (ieee.of_Z 10) /\
    mean_amplitude st =
      PrimFloat.div
        (PrimFloat.add (PrimFloat.add (max_amplitude st) (max_amplitude st))
                       (max_amplitude st))
        (ieee.of_Z 3) /\
    PrimFloat.ltb (max_amplitude st) (mean_amplitude st) = true /\
    PrimFloat.leb (mean_amplitude st) (max_amplitude st) = false.
Proof.
  eexists. split; [vm_compute; reflexivity|].
  repeat split; vm_compute; reflexivity.
Qed.

(** ** The file system *)

Lemma rmtree_removes (p : pathlib.PurePath) (fs : os.FS) (k : list string) :
  os.below (os.resolve p) k -> ~ os.exists_at (os.rmtree p fs) k.
Proof.
  intros Hbelow [Hdir | [data Hfile]].
  - unfold os.rmtree in Hdir. simpl in Hdir.
    apply elem_of_filter in Hdir as [Hnot _]. by apply Hnot.
  - unfold os.rmtree in Hfile. simpl in Hfile.
    apply map_lookup_filter_Some in Hfile as [_ Hnot]. by apply Hnot.
Qed.

(** ** Which exceptions the stages raise *)

Lemma raises_only_bind {A B} (P : exn -> Prop) (m : io A) (k : A -> io B) :
  raises_only P m -> (forall a, raises_only P (k a)) ->
  raises_only P (io_bind m k).
Proof.
  intros Hm Hk fs fs' e. unfold io_bind.
  destruct (m fs) as [fs1 [a|e1]] eqn:Hmfs.
  - apply Hk.
  - intros [= _ <-]. by apply (Hm fs fs1).
Qed.

Lemma raises_only_pure {A} (P : exn -> Prop) (r : result A) :
  (forall e, r = Raise e -> P e) -> raises_only P (pure r).
Proof. intros Hr fs fs' e [= _ He]. by apply Hr. Qed.

Lemma raises_only_weaken {A} (P Q : exn -> Prop) (m : io A) :
  (forall e, P e -> Q e) -> raises_only P m -> raises_only Q m.
Proof. intros HPQ Hm fs fs' e He. apply HPQ. by apply (Hm fs fs'). Qed.

Lemma call_ordinary {A} (r : string + A) (e : exn) :
  call r = Raise e -> ordinary e.
Proof. destruct r; simpl; [|done]. intros [= <-]. by eexists. Qed.

Lemma write_file_ordinary (p : pathlib.PurePath) (data : list Byte.byte) :
  raises_only ordinary (os.write_file p data).
Proof.
  intros fs fs' e. unfold os.write_file.
  destruct (List.find _ _); repeat case_decide; intros [= _ <-]; by eexists.
Qed.

Lemma validate_files_client_error
    (set_iter : gset string -> list string) (files : list UploadFile) (e : exn) :
  validate_files set_iter files = Raise e -> client_error e.
Proof.
  unfold validate_files. destruct files as [|f0 rest].
  - simpl. intros [= <-]. eexists. by left.
  - simpl check_not_empty. simpl bind.
    destruct (check_extensions_cases set_iter (f0 :: rest)) as [-> | ->];
      simpl bind.
    + intros [= <-]. eexists. by left.
    + intros Hs. apply (check_sizes_raises (f0 :: rest)) in Hs as (g & _ & ->).
      eexists. by right.
Qed.

(** ** The route handler *)

Section HandlerFacts.

Context {F : Type} `{Float64 F}.
Variable set_iter : gset string -> list string.
Variable mkdtemp : os.FS -> string + string.
Variable rdrecord : os.FS -> string -> string + Record_ F.
Variable predict : Tensor F -> string + gmap string (pyvalue F).
Variable PredictionResponse_init :
  PredictionResponse F -> string + PredictionResponse F.

#[local] Abbreviation try_ :=
  (predict_ecg_file_try set_iter mkdtemp rdrecord predict PredictionResponse_init).
#[local] Abbreviation handler :=
  (predict_ecg_file set_iter mkdtemp rdrecord predict PredictionResponse_init).
#[local] Abbreviation route :=
  (post_predict_file set_iter mkdtemp rdrecord predict PredictionResponse_init).

Lemma with_TemporaryDirectory_cleans {A} (body : string -> io A)
    (fs : os.FS) (tmpdirname : string) (k : list string) :
  mkdtemp fs = inr tmpdirname ->
  os.below (os.resolve (pathlib.Path tmpdirname)) k ->
  ~ os.exists_at (with_TemporaryDirectory mkdtemp body fs).1 k.
Proof.
  intros Hmk Hbelow. unfold with_TemporaryDirectory. rewrite Hmk.
  destruct (body tmpdirname _) as [fs' r]. simpl.
  by apply rmtree_removes.
Qed.

Lemma with_TemporaryDirectory_raises {A} (P : exn -> Prop)
    (body : string -> io A) :
  (forall e, ordinary e -> P e) ->
  (forall tmpdirname, raises_only P (body tmpdirname)) ->
  raises_only P (with_TemporaryDirectory mkdtemp body).
Proof.
  intros Hord Hbody fs fs' e. unfold with_TemporaryDirectory.
  destruct (mkdtemp fs) as [str_e | tmpdirname].
  - intros [= _ <-]. apply Hord. by eexists.
  - destruct (body tmpdirname _) as [fs1 r] eqn:Hb.
    intros [= _ ->]. by apply (Hbody tmpdirname _ _ _ Hb).
Qed.

Lemma save_uploaded_files_ordinary (tmpdirname : string)
    (files : list UploadFile) (filenames : list string) :
  raises_only ordinary (save_uploaded_files tmpdirname files filenames).
Proof.
  revert filenames. induction files as [|f rest IH]; intros filenames.
  - by intros fs fs' e [=].
  - simpl. apply raises_only_bind; [apply write_file_ordinary|].
    intros _. apply IH.
Qed.

Lemma save_uploaded_files_extends (tmpdirname : string)
    (files : list UploadFile) (acc filenames : list string) (fs fs' : os.FS) :
  save_uploaded_files tmpdirname files acc fs = (fs', Return filenames) ->
  exists more, filenames = (acc ++ more)%list.
Proof.
  revert acc fs. induction files as [|f rest IH]; intros acc fs.
  - intros [= _ <-]. exists []. by rewrite app_nil_r.
  - simpl. unfold io_bind.
    destruct (os.write_file _ _ fs) as [fs1 [[]|e]]; [|done].
    intros (more & ->)%IH. eexists. by rewrite <- app_assoc.
Qed.

Lemma save_uploaded_files_first (tmpdirname : string) (f0 : UploadFile)
    (rest : list UploadFile) (filenames : list string) (fs fs' : os.FS) :
  save_uploaded_files tmpdirname (f0 :: rest) [] fs = (fs', Return filenames) ->
  exists more,
    filenames =
      pathlib.str (pathlib.truediv (pathlib.Path tmpdirname)
                                   (pathlib.Path (filename f0))) :: more.
Proof.
  simpl. unfold io_bind.
  destruct (os.write_file _ _ fs) as [fs1 [[]|e]]; [|done].
  intros (more & ->)%save_uploaded_files_extends. by exists more.
Qed.

Lemma read_ecg_client_error (record_path : string) :
  raises_only client_error (read_ecg rdrecord record_path).
Proof.
  intros fs fs' e. unfold read_ecg.
  destruct (bind _ _); intros [= _ <-]. eexists. by left.
Qed.

Lemma read_ecg_reader_raises (record_path str_e : string) (fs : os.FS) :
  rdrecord fs record_path = inl str_e ->
  read_ecg rdrecord record_path fs =
    (fs, Raise (HTTPException 400 ("Failed to read ECG files: " ++ str_e))).
Proof. intros Hrd. unfold read_ecg. by rewrite Hrd. Qed.

Lemma calculate_ecg_stats_ordinary (A : np.ndarray F) (e : exn) :
  calculate_ecg_stats A = Raise e -> ordinary e.
Proof.
  unfold calculate_ecg_stats, np.max, np.min, np.reduce1.
  destruct (concat (np.rows A)); simpl; intros [= <-]; by eexists.
Qed.

Lemma getitem_ordinary (d : gmap string (pyvalue F)) (key : string) (e : exn) :
  getitem d key = Raise e -> ordinary e.
Proof.
  unfold getitem. destruct (d !! key); [done|]. intros [= <-]. by eexists.
Qed.

(** The body of the [try] raises client errors (400, 413) and ordinary
    exceptions, nothing else. *)
Lemma predict_ecg_file_try_raises (files : list UploadFile) :
  raises_only (fun e => client_error e \/ ordinary e) (try_ files).
Proof.
  unfold predict_ecg_file_try.
  apply raises_only_bind.
  { apply raises_only_pure. intros e He. left.
    by apply (validate_files_client_error set_iter files). }
  intros _. apply with_TemporaryDirectory_raises; [by right|].
  intros tmpdirname. apply raises_only_bind.
  { eapply raises_only_weaken; [|apply save_uploaded_files_ordinary]. by right. }
  intros filenames. apply raises_only_bind.
  { apply raises_only_pure. intros e He. right.
    destruct filenames; [|done]. injection He as <-. by eexists. }
  intros filename0. apply raises_only_bind.
  { eapply raises_only_weaken; [|apply read_ecg_client_error]. by left. }
  intros ecg_data. apply raises_only_bind.
  { apply raises_only_pure. intros e He. right. by apply call_ordinary in He. }
  intros result_. apply raises_only_bind.
  { apply raises_only_pure. intros e He. right.
    by apply calculate_ecg_stats_ordinary in He. }
  intros stats. apply raises_only_bind.
  { apply raises_only_pure. intros e He. right. by apply getitem_ordinary in He. }
  intros label. apply raises_only_bind.
  { apply raises_only_pure. intros e He. right. by apply getitem_ordinary in He. }
  intros index. apply raises_only_pure. intros e He. right.
  by apply call_ordinary in He.
Qed.

(** The file system the handler leaves is the one the [try] leaves. *)
Lemma predict_ecg_file_fs (files : list UploadFile) (fs : os.FS) :
  (handler files fs).1 = (try_ files fs).1 /\
  (route files fs).1 = (try_ files fs).1.
Proof.
  unfold post_predict_file, predict_ecg_file.
  destruct (try_ files fs) as [fs' [r | [s d | str_e]]]; done.
Qed.

(** An exception of [predict] leaves the [try] as it is. *)
Lemma predict_exception_propagates (f0 : UploadFile) (rest : list UploadFile)
    (fs fs1 : os.FS) (tmpdirname str_e : string) (filenames : list string)
    (record : Record_ F) (a : np.ndarray F) :
  validate_files set_iter (f0 :: rest) = Return tt ->
  mkdtemp fs = inr tmpdirname ->
  save_uploaded_files tmpdirname (f0 :: rest) []
    (os.mkdir (pathlib.Path tmpdirname) fs) = (fs1, Return filenames) ->
  rdrecord fs1
    (record_path_of tmpdirname
       (pathlib.str (pathlib.truediv (pathlib.Path tmpdirname)
                                     (pathlib.Path (filename f0)))))
    = inr record ->
  p_signal record = Some a ->
  predict (unsqueeze0 (torch_tensor (normalize (np.T a)))) = inl str_e ->
  try_ (f0 :: rest) fs =
    (os.rmtree (pathlib.Path tmpdirname) fs1, Raise (Exception str_e)).
Proof.
  intros Hval Hmk Hsave Hrd Hsig Hpred.
  unfold predict_ecg_file_try, io_bind at 1, pure at 1.
  rewrite Hval. unfold with_TemporaryDirectory. rewrite Hmk.
  unfold io_bind at 1. rewrite Hsave.
  destruct (save_uploaded_files_first _ _ _ _ _ _ Hsave) as (more & ->).
  simpl first. unfold io_bind at 1, pure at 1.
  unfold io_bind at 1, read_ecg at 1. rewrite Hrd. simpl call.
  simpl bind. unfold p_signal_T. rewrite Hsig.
  unfold io_bind at 1, pure at 1. rewrite Hpred. reflexivity.
Qed.

(** C1, as the code has it: when the body of the [try] raises an exception
    that is not an [HTTPException], the response has status 500 and the
    body [{"detail": "Internal server error: " + str(e)}]: the text of the
    exception is in it, and it is not the fixed message of the global
    handler, which such an exception never reaches. *)
Theorem unexpected_exception_is_500_with_text
    (files : list UploadFile) (fs fs' : os.FS) (str_e : string) :
  try_ files fs = (fs', Raise (Exception str_e)) ->
  route files fs =
    (fs', {| status := 500;
             content := [ ("detail",
                           JStr ("Internal server error: " ++ str_e)) ] |}) /\
  pystr.contains str_e ("Internal server error: " ++ str_e) = true /\
  member "detail" (content (route files fs).2)
    <> Some (JStr "An unexpected error occurred") /\
  (route files fs).2 <> global_exception_handler str_e.
Proof.
  intros Htry.
  assert (route files fs =
    (fs', {| status := 500;
             content := [ ("detail",
                           JStr ("Internal server error: " ++ str_e)) ] |}))
    as Hroute.
  { unfold post_predict_file, predict_ecg_file. by rewrite Htry. }
  split; [exact Hroute|]. split.
  { apply (contains_suffix str_e "Internal server error: "). }
  rewrite Hroute. split; simpl; discriminate.
Qed.

(** C2, as the code has it: when the handler, called with at least one
    upload, fails, the response has status 400, 413 or 500 and a body that
    holds a [detail] string and nothing else: no [success] member and no
    [error] member.  (FastAPI does not call the handler without a file.) *)
Theorem error_responses_carry_detail_only
    (files : list UploadFile) (fs : os.FS) (e : exn) :
  files <> [] ->
  (handler files fs).2 = Raise e ->
  exists s d,
    e = HTTPException s d /\
    (s = 400 \/ s = 413 \/ s = 500) /\
    (route files fs).2 = {| status := s; content := [ ("detail", JStr d) ] |} /\
    member "detail" (content (route files fs).2) = Some (JStr d) /\
    member "success" (content (route files fs).2) = None /\
    member "error" (content (route files fs).2) = None.
Proof.
  intros _. pose proof (predict_ecg_file_try_raises files fs) as Hraises.
  unfold post_predict_file, predict_ecg_file.
  destruct (try_ files fs) as [fs' [r | [s d | str_e]]]; simpl; [done| |].
  - intros [= <-]. exists s, d. split; [done|]. split; [|done].
    destruct (Hraises fs' _ eq_refl) as [[d' [[= -> _] | [= -> _]]] | [m [=]]];
      auto.
  - intros [= <-]. eexists _, _. split; [done|]. split; [|done]. auto.
Qed.

(** C5: once validation has passed and the temporary directory has been
    made, nothing is left at or below it when the handler returns,
    whatever the handler returns or raises. *)
Theorem staging_scope_removed
    (files : list UploadFile) (fs : os.FS) (tmpdirname : string)
    (k : list string) :
  validate_files set_iter files = Return tt ->
  mkdtemp fs = inr tmpdirname ->
  os.below (os.resolve (pathlib.Path tmpdirname)) k ->
  ~ os.exists_at (handler files fs).1 k /\
  ~ os.exists_at (route files fs).1 k.
Proof.
  intros Hval Hmk Hbelow.
  destruct (predict_ecg_file_fs files fs) as [-> ->].
  assert (~ os.exists_at (try_ files fs).1 k); [|done].
  unfold predict_ecg_file_try, io_bind at 1, pure at 1. rewrite Hval.
  by apply (with_TemporaryDirectory_cleans _ fs tmpdirname).
Qed.

(** C6: when the uploads have been validated and saved and the reader
    raises on the record path, the response has status 400 and its detail
    is ["Failed to read ECG files: "] followed by [str(e)] of the reader's
    exception. *)
Theorem reader_exception_is_400
    (f0 : UploadFile) (rest : list UploadFile) (fs fs1 : os.FS)
    (tmpdirname str_e : string) (filenames : list string) :
  validate_files set_iter (f0 :: rest) = Return tt ->
  mkdtemp fs = inr tmpdirname ->
  save_uploaded_files tmpdirname (f0 :: rest) []
    (os.mkdir (pathlib.Path tmpdirname) fs) = (fs1, Return filenames) ->
  rdrecord fs1
    (record_path_of tmpdirname
       (pathlib.str (pathlib.truediv (pathlib.Path tmpdirname)
                                     (pathlib.Path (filename f0)))))
    = inl str_e ->
  (route (f0 :: rest) fs).2 =
    {| status := 400;
       content := [ ("detail", JStr ("Failed to read ECG files: " ++ str_e)) ] |} /\
  pystr.contains str_e ("Failed to read ECG files: " ++ str_e) = true /\
  status (route (f0 :: rest) fs).2 <> 500.
Proof.
  intros Hval Hmk Hsave Hrd.
  assert ((route (f0 :: rest) fs).2 =
    {| status := 400;
       content := [ ("detail", JStr ("Failed to read ECG files: " ++ str_e)) ] |})
    as Hroute.
  { unfold post_predict_file, predict_ecg_file, predict_ecg_file_try.
    unfold io_bind at 1, pure at 1. rewrite Hval.
    unfold with_TemporaryDirectory. rewrite Hmk.
    unfold io_bind at 1. rewrite Hsave.
  destruct (save_uploaded_files_first _ _ _ _ _ _ Hsave) as (more & ->).
    simpl first. unfold io_bind at 1, pure at 1.
    unfold io_bind at 1.
    by rewrite (read_ecg_reader_raises _ str_e fs1 Hrd). }
  split; [exact Hroute|]. split.
  { apply (contains_suffix str_e "Failed to read ECG files: "). }
  by rewrite Hroute.
Qed.

End HandlerFacts.

(** ** The handler on the test doubles *)

Lemma unexpected_exception_is_500_with_text_witness :
  stub.route stub.predict_raises stub.record_pair stub.fs0 =
    ((stub.try_ stub.predict_raises stub.record_pair stub.fs0).1,
     {| status := 500;
        content := [ ("detail",
                      JStr ("Internal server error: " ++ "CUDA out of memory")) ] |}) /\
  pystr.contains "CUDA out of memory"
    ("Internal server error: " ++ "CUDA out of memory") = true /\
  member "detail"
    (content (stub.route stub.predict_raises stub.record_pair stub.fs0).2)
    <> Some (JStr "An unexpected error occurred") /\
  (stub.route stub.predict_raises stub.record_pair stub.fs0).2
    <> global_exception_handler "CUDA out of memory".
Proof.
  apply (unexpected_exception_is_500_with_text elements stub.mkdtemp stub.rdrecord
           stub.predict_raises stub.PredictionResponse_init
           stub.record_pair stub.fs0).
  vm_compute. reflexivity.
Defined.

(** C1, as the specification has it, fails: with a model whose [predict]
    raises "CUDA out of memory", the response to a well-formed record pair
    is a 500 whose detail is "Internal server error: CUDA out of memory",
    not the fixed message, and holds the text of the exception. *)
Lemma predict_failure_text_reaches_client :
  (stub.route stub.predict_raises stub.record_pair stub.fs0).2 =
    {| status := 500;
       content := [ ("detail", JStr "Internal server error: CUDA out of memory") ] |} /\
  member "detail"
    (content (stub.route stub.predict_raises stub.record_pair stub.fs0).2)
    <> Some (JStr "An unexpected error occurred") /\
  pystr.contains "CUDA out of memory"
    "Internal server error: CUDA out of memory" = true.
Proof.
  split; [vm_compute; reflexivity|].
  split; [vm_compute; discriminate | vm_compute; reflexivity].
Qed.

Lemma error_responses_carry_detail_only_witness :
  exists s d,
    HTTPException 400
      ("Failed to read ECG files: "
         ++ "[Errno 2] No such file or directory: '/tmp/tmpk3v9fq1a/rec100.hea'")
      = HTTPException s d /\
    (s = 400 \/ s = 413 \/ s = 500) /\
    (stub.route stub.predict stub.data_only stub.fs0).2
      = {| status := s; content := [ ("detail", JStr d) ] |} /\
    member "detail" (content (stub.route stub.predict stub.data_only stub.fs0).2)
      = Some (JStr d) /\
    member "success" (content (stub.route stub.predict stub.data_only stub.fs0).2)
      = None /\
    member "error" (content (stub.route stub.predict stub.data_only stub.fs0).2)
      = None.
Proof.
  apply (error_responses_carry_detail_only elements stub.mkdtemp stub.rdrecord
           stub.predict stub.PredictionResponse_init stub.data_only stub.fs0).
  - discriminate.
  - vm_compute. reflexivity.
Defined.

(** C2, as the specification has it, fails: the handler is reached with an
    upload of one file named [notes.txt], and the response is a 400 whose
    body is
    [{"detail": "Please upload files with extensions: ..."}], with no
    [success] member and no [error] member, whatever the order in which the
    two extensions are listed. *)
Lemma bad_extension_response_is_detail_only :
  stub.plain_text <> [] /\
  forall set_iter : gset string -> list string,
    (post_predict_file set_iter stub.mkdtemp stub.rdrecord stub.predict
       stub.PredictionResponse_init stub.plain_text stub.fs0).2 =
      {| status := 400;
         content :=
           [ ("detail",
              JStr ("Please upload files with extensions: "
                      ++ pystr.join ", " (set_iter config.ALLOWED_EXTENSIONS))) ] |} /\
    member "success"
      (content
         (post_predict_file set_iter stub.mkdtemp stub.rdrecord stub.predict
            stub.PredictionResponse_init stub.plain_text stub.fs0).2) = None /\
    member "error"
      (content
         (post_predict_file set_iter stub.mkdtemp stub.rdrecord stub.predict
            stub.PredictionResponse_init stub.plain_text stub.fs0).2) = None.
Proof.
  split; [done|]. intros set_iter.
  assert (validate_files set_iter stub.plain_text
          = Raise (extension_error set_iter)) as Hval.
  { apply validate_files_none_allowed; [done|].
    intros f ->%list_elem_of_singleton. vm_compute. set_solver. }
  set (response := (post_predict_file set_iter stub.mkdtemp stub.rdrecord
                      stub.predict stub.PredictionResponse_init
                      stub.plain_text stub.fs0).2).
  assert (response =
          {| status := 400;
             content :=
               [ ("detail",
                  JStr ("Please upload files with extensions: "
                          ++ pystr.join ", "
                               (set_iter config.ALLOWED_EXTENSIONS))) ] |})
    as Hresponse.
  { unfold response, post_predict_file, predict_ecg_file, predict_ecg_file_try.
    unfold io_bind at 1, pure at 1. by rewrite Hval. }
  clearbody response. subst response. repeat split.
Qed.

Lemma staging_scope_removed_witness :
  ~ os.exists_at
      (predict_ecg_file elements stub.mkdtemp stub.rdrecord stub.predict
         stub.PredictionResponse_init stub.record_pair stub.fs0).1
      ["tmp"; "tmpk3v9fq1a"; "rec100.dat"] /\
  ~ os.exists_at
      (stub.route stub.predict stub.record_pair stub.fs0).1
      ["tmp"; "tmpk3v9fq1a"; "rec100.dat"].
Proof.
  apply (staging_scope_removed elements stub.mkdtemp stub.rdrecord stub.predict
           stub.PredictionResponse_init stub.record_pair stub.fs0
           "/tmp/tmpk3v9fq1a").
  - vm_compute. reflexivity.
  - reflexivity.
  - exists ["rec100.dat"]. vm_compute. reflexivity.
Defined.

Lemma reader_exception_is_400_witness :
  (stub.route stub.predict stub.data_only stub.fs0).2 =
    {| status := 400;
       content :=
         [ ("detail",
            JStr ("Failed to read ECG files: "
                    ++ "[Errno 2] No such file or directory: '/tmp/tmpk3v9fq1a/rec100.hea'")) ] |} /\
  pystr.contains
    "[Errno 2] No such file or directory: '/tmp/tmpk3v9fq1a/rec100.hea'"
    ("Failed to read ECG files: "
       ++ "[Errno 2] No such file or directory: '/tmp/tmpk3v9fq1a/rec100.hea'")
    = true /\
  status (stub.route stub.predict stub.data_only stub.fs0).2 <> 500.
Proof.
  apply (reader_exception_is_400 elements stub.mkdtemp stub.rdrecord stub.predict
           stub.PredictionResponse_init
           (mkUpload "rec100.dat" (Some 4) [Byte.x10; Byte.x20; Byte.x30; Byte.x40])
           [] stub.fs0
           (save_uploaded_files "/tmp/tmpk3v9fq1a" stub.data_only []
              (os.mkdir (pathlib.Path "/tmp/tmpk3v9fq1a") stub.fs0)).1
           "/tmp/tmpk3v9fq1a"
           "[Errno 2] No such file or directory: '/tmp/tmpk3v9fq1a/rec100.hea'"
           ["/tmp/tmpk3v9fq1a/rec100.dat"]).
  - vm_compute. reflexivity.
  - reflexivity.
  - vm_compute. reflexivity.
  - vm_compute. reflexivity.
Defined.

(** The three ways through the staging scope, each leaving nothing at or
    below the temporary directory: a prediction, a reader that raises, a
    model that raises. *)
Example scope_removed_after_prediction :
  status (stub.route stub.predict stub.record_pair stub.fs0).2 = 200 /\
  stub.staged (stub.route stub.predict stub.record_pair stub.fs0).1 = [].
Proof. split; vm_compute; reflexivity. Qed.

Example scope_removed_after_reader_exception :
  status (stub.route stub.predict stub.data_only stub.fs0).2 = 400 /\
  stub.staged (stub.route stub.predict stub.data_only stub.fs0).1 = [].
Proof. split; vm_compute; reflexivity. Qed.

Example scope_removed_after_predict_exception :
  status (stub.route stub.predict_raises stub.record_pair stub.fs0).2 = 500 /\
  stub.staged (stub.route stub.predict_raises stub.record_pair stub.fs0).1 = [].
Proof. split; vm_compute; reflexivity. Qed.

(** While the scope is open the uploads are there. *)
Example uploads_are_staged :
  stub.staged
    (save_uploaded_files "/tmp/tmpk3v9fq1a" stub.record_pair []
       (os.mkdir (pathlib.Path "/tmp/tmpk3v9fq1a") stub.fs0)).1
  <> [].
Proof. vm_compute. discriminate. Qed.

(** The scope holds what is written below the directory: an upload named
    with a [".."] step is written beside the directory and stays. *)
Example upload_beside_the_scope_stays :
  let fs' :=
    (stub.route stub.predict
       [ mkUpload "../rec100.hea" (Some 2) [Byte.x68; Byte.x64] ] stub.fs0).1 in
  stub.staged fs' = [] /\
  os.files fs' !! ["tmp"; "rec100.hea"] = Some [Byte.x68; Byte.x64].
Proof. split; vm_compute; reflexivity. Qed.

(** A name that passes through a missing directory is not opened, although
    it resolves to a place in the scope: the upload fails with status 500. *)
Example upload_through_missing_directory :
  (stub.route stub.predict
     [ mkUpload "sub/../b.hea" (Some 2) [Byte.x68; Byte.x64] ] stub.fs0).2 =
    {| status := 500;
       content :=
         [ ("detail",
            JStr ("Internal server error: [Errno 2] No such file or directory: "
                    ++ "'/tmp/tmpk3v9fq1a/sub/../b.hea'")) ] |}.
Proof. vm_compute. reflexivity. Qed.

(** * Further properties of the code *)

(** ** The file validator *)

Section ValidatorMore.

Variable set_iter : gset string -> list string.

Lemma check_sizes_returns (files : list UploadFile) :
  check_sizes files = Return tt <-> Forall (fun f => ~ exceeds_cap f) files.
Proof.
  induction files as [|f rest IH]; simpl.
  - split; [constructor | done].
  - destruct (too_large f) eqn:Hf.
    + split; [done|]. intros Hall. apply Forall_cons in Hall as [Hn _].
      by apply too_large_iff in Hf.
    + rewrite IH. split.
      * intros Hall. constructor; [|done].
        intros Hc%too_large_iff. congruence.
      * by intros [_ ?]%Forall_cons.
Qed.

Lemma check_extensions_returns (files : list UploadFile) :
  check_extensions set_iter files = Return tt <-> Exists allowed files.
Proof.
  split.
  - intros Hr. destruct (decide (Exists allowed files)) as [|Hno]; [done|].
    exfalso.
    assert (check_extensions set_iter files = Raise (extension_error set_iter))
      as Hraise.
    { apply check_extensions_raises. intros f Hf Hallowed. apply Hno.
      apply Exists_exists. eauto. }
    congruence.
  - intros (f & Hf & Hallowed)%Exists_exists.
    by apply (check_extensions_passes set_iter files f).
Qed.

Lemma validate_files_returns (files : list UploadFile) :
  validate_files set_iter files = Return tt <->
  files <> [] /\ Exists allowed files /\
  Forall (fun f => ~ exceeds_cap f) files.
Proof.
  rewrite <- check_extensions_returns, <- check_sizes_returns.
  unfold validate_files. destruct files as [|f0 rest].
  - split; [done | by intros [? _]].
  - simpl check_not_empty. simpl bind.
    destruct (check_extensions_cases set_iter (f0 :: rest)) as [-> | ->];
      simpl bind.
    + split; [done | by intros (_ & ? & _)].
    + split; [done | by intros (_ & _ & ?)].
Qed.

(** X1: the validator accepts an upload set exactly when it is not empty,
    some file name has an allowed extension and no declared size is above
    the cap; it raises the "no files" error exactly on the empty set. *)
Theorem validate_files_accepts_iff (files : list UploadFile) :
  (validate_files set_iter files = Return tt <->
     files <> [] /\ Exists allowed files /\
     Forall (fun f => ~ exceeds_cap f) files) /\
  (validate_files set_iter files = Raise no_files_error <-> files = []).
Proof.
  split; [apply validate_files_returns|].
  destruct files as [|f0 rest]; [done|]. split; [|done].
  unfold validate_files. simpl check_not_empty. simpl bind.
  destruct (check_extensions_cases set_iter (f0 :: rest)) as [-> | ->];
    simpl bind.
  - by intros [=].
  - intros Hs. apply (check_sizes_raises (f0 :: rest)) in Hs as (g & _ & Hg).
    discriminate Hg.
Qed.

(** X2: whether an upload set is accepted does not depend on the order of
    the files in it. *)
Theorem validate_files_acceptance_order (files files' : list UploadFile) :
  files ≡ₚ files' ->
  (validate_files set_iter files = Return tt <->
   validate_files set_iter files' = Return tt).
Proof.
  intros Hperm. rewrite !validate_files_returns.
  assert (files <> [] <-> files' <> []) as ->.
  { split; intros Hne ->.
    - by apply Permutation_nil_r in Hperm.
    - by apply Permutation_nil_l in Hperm. }
  by rewrite Hperm.
Qed.

(** X3: the validator looks at the names and the declared sizes of the
    uploads only: two upload sets that agree on these get the same verdict,
    whatever bytes the files hold. *)
Theorem validate_files_ignores_content (files files' : list UploadFile) :
  declared <$> files = declared <$> files' ->
  validate_files set_iter files = validate_files set_iter files'.
Proof.
  intros Hd.
  assert (extension <$> files = extension <$> files') as Hext.
  { revert files' Hd. induction files as [|f rest IH]; intros [|f' rest'] Hd;
      try done.
    injection Hd as Hname Hsize Hrest. rewrite !fmap_cons. f_equal; [|by apply IH].
    unfold extension. by rewrite Hname. }
  assert (check_sizes files = check_sizes files') as Hsizes.
  { clear Hext. revert files' Hd.
    induction files as [|f rest IH]; intros [|f' rest'] Hd; try done.
    injection Hd as Hname Hsize Hrest. simpl.
    unfold too_large, too_large_error. rewrite Hname, Hsize.
    by rewrite (IH rest' Hrest). }
  unfold validate_files, check_extensions, extensions.
  rewrite Hext, Hsizes.
  by destruct files, files'.
Qed.

End ValidatorMore.

Lemma validate_files_acceptance_order_witness :
  validate_files elements stub.record_pair = Return tt <->
  validate_files elements (rev stub.record_pair) = Return tt.
Proof.
  apply (validate_files_acceptance_order elements).
  apply Permutation_rev.
Defined.

Lemma validate_files_ignores_content_witness :
  validate_files elements stub.record_pair =
  validate_files elements
    [ mkUpload "rec100.dat" (Some 4) []; mkUpload "rec100.hea" (Some 2) [] ].
Proof.
  apply (validate_files_ignores_content elements). reflexivity.
Defined.

(** ** File names and their extensions *)

Lemma lower_ascii_slash (a : ascii) :
  Ascii.eqb (pystr.lower_ascii a) "/" = Ascii.eqb a "/".
Proof. destruct a as [[] [] [] [] [] [] [] []]; reflexivity. Qed.

Lemma lower_ascii_dot (a : ascii) :
  Ascii.eqb (pystr.lower_ascii a) "." = Ascii.eqb a ".".
Proof. destruct a as [[] [] [] [] [] [] [] []]; reflexivity. Qed.

Lemma lower_ascii_idem (a : ascii) :
  pystr.lower_ascii (pystr.lower_ascii a) = pystr.lower_ascii a.
Proof. destruct a as [[] [] [] [] [] [] [] []]; reflexivity. Qed.

Lemma lower_idem (s : string) : pystr.lower (pystr.lower s) = pystr.lower s.
Proof.
  induction s as [|a s IH]; simpl; [done|].
  by rewrite lower_ascii_idem, IH.
Qed.

Lemma lower_app (s t : string) :
  pystr.lower (s ++ t) = pystr.lower s ++ pystr.lower t.
Proof. induction s as [|a s IH]; simpl; [done|]. by rewrite IH. Qed.

Lemma length_lower (s : string) : String.length (pystr.lower s) = String.length s.
Proof. induction s as [|a s IH]; simpl; [done|]. by rewrite IH. Qed.

Lemma rfind_dot_lower (s : string) :
  pystr.rfind "." (pystr.lower s) = pystr.rfind "." s.
Proof.
  induction s as [|a s IH]; simpl; [done|].
  by rewrite IH, lower_ascii_dot.
Qed.

Lemma drop_lower (i : nat) (s : string) :
  pystr.drop i (pystr.lower s) = pystr.lower (pystr.drop i s).
Proof.
  revert s. induction i as [|i IH]; intros [|a s]; simpl; try done.
Qed.

Lemma split_slash_lower (s : string) :
  pystr.split "/" (pystr.lower s) = List.map pystr.lower (pystr.split "/" s).
Proof.
  induction s as [|a s IH]; simpl; [done|].
  rewrite lower_ascii_slash, IH.
  destruct (Ascii.eqb a "/"); [done|].
  by destruct (pystr.split "/" s).
Qed.

Lemma keep_part_lower (w : string) :
  pathlib.keep_part (pystr.lower w) = pathlib.keep_part w.
Proof.
  unfold pathlib.keep_part. destruct w as [|a [|b w]]; [done| |].
  - destruct a as [[] [] [] [] [] [] [] []]; reflexivity.
  - cbn [pystr.lower String.eqb].
    by destruct (Ascii.eqb _ "."), (Ascii.eqb a ".").
Qed.

Lemma filter_keep_part_lower (ws : list string) :
  List.filter pathlib.keep_part (List.map pystr.lower ws)
  = List.map pystr.lower (List.filter pathlib.keep_part ws).
Proof.
  induction ws as [|w ws IH]; simpl; [done|].
  rewrite keep_part_lower, IH. by destruct (pathlib.keep_part w).
Qed.

Lemma last_map_lower (ws : list string) :
  List.last (List.map pystr.lower ws) "" = pystr.lower (List.last ws "").
Proof.
  induction ws as [|w [|w' ws] IH]; simpl in *; try done.
Qed.

Lemma name_lower (s : string) :
  pathlib.name (pathlib.Path (pystr.lower s))
  = pystr.lower (pathlib.name (pathlib.Path s)).
Proof.
  unfold pathlib.name, pathlib.Path. simpl.
  by rewrite split_slash_lower, filter_keep_part_lower, last_map_lower.
Qed.

Lemma suffix_lower (s : string) :
  pathlib.suffix (pathlib.Path (pystr.lower s))
  = pystr.lower (pathlib.suffix (pathlib.Path s)).
Proof.
  unfold pathlib.suffix, pathlib.suffix_index.
  rewrite name_lower, rfind_dot_lower, length_lower.
  destruct (pystr.rfind "." _) as [i|]; [|done].
  destruct (_ && _); [|done]. apply drop_lower.
Qed.

Lemma take_drop (i : nat) (s : string) : pystr.take i s ++ pystr.drop i s = s.
Proof.
  revert s. induction i as [|i IH]; intros [|a s]; try done.
  change (String a (pystr.take i s ++ pystr.drop i s) = String a s).
  by rewrite IH.
Qed.

Lemma length_app_string (s t : string) :
  String.length (s ++ t) = (String.length s + String.length t)%nat.
Proof. induction s as [|a s IH]; simpl; [done|]. by rewrite IH. Qed.

Lemma drop_app_length (s t : string) : pystr.drop (String.length s) (s ++ t) = t.
Proof. induction s as [|a s IH]; simpl; [by destruct t | done]. Qed.

Lemma length_take (i : nat) (s : string) :
  (i <= String.length s)%nat -> String.length (pystr.take i s) = i.
Proof.
  revert s. induction i as [|i IH]; intros [|a s]; simpl; try done; try lia.
  intros Hi. rewrite IH; lia.
Qed.

Lemma rfind_app (c : ascii) (s t : string) :
  pystr.rfind c (s ++ t) =
    match pystr.rfind c t with
    | Some j => Some (String.length s + j)%nat
    | None => pystr.rfind c s
    end.
Proof.
  induction s as [|a s IH].
  - change ("" ++ t) with t. by destruct (pystr.rfind c t).
  - change (String a s ++ t) with (String a (s ++ t)).
    cbn [pystr.rfind String.length]. rewrite IH.
    by destruct (pystr.rfind c t) as [j|].
Qed.

Lemma elem_of_ALLOWED_EXTENSIONS (ext : string) :
  ext ∈ config.ALLOWED_EXTENSIONS <-> ext = ".dat" \/ ext = ".hea".
Proof. unfold config.ALLOWED_EXTENSIONS. set_solver. Qed.

(** The suffix of a name of the form [st ++ ext], [ext] one of the two
    allowed extensions in lower case. *)
Lemma extension_of_name (nm st ext : string) :
  st <> "" -> ext = ".dat" \/ ext = ".hea" ->
  pystr.lower nm = st ++ ext ->
  match pathlib.suffix_index nm with
  | Some i => pystr.lower (pystr.drop i nm) = ext
  | None => False
  end.
Proof.
  intros Hst Hext Hnm. unfold pathlib.suffix_index.
  rewrite <- rfind_dot_lower, <- length_lower, Hnm, rfind_app, length_app_string.
  assert (0 < String.length st)%nat as Hlen by (destruct st; [done | simpl; lia]).
  assert (pystr.rfind "." ext = Some 0%nat /\ String.length ext = 4%nat)
    as [-> ->] by (by destruct Hext as [-> | ->]).
  rewrite Nat.add_0_r.
  destruct (Nat.ltb_spec 0 (String.length st)); [|lia].
  destruct (Nat.ltb_spec (String.length st) (String.length st + 4 - 1)); [|lia].
  simpl. rewrite <- drop_lower, Hnm. apply drop_app_length.
Qed.

(** X4: renaming the uploads in a way that changes at most the case of
    ASCII letters in a name (the names agree once their ASCII letters are
    folded to lower case) changes neither which uploads have an allowed
    extension nor whether the validator accepts the set: [REC.DAT] counts
    like [rec.dat]. *)
Theorem allowed_ignores_ascii_case
    (set_iter : gset string -> list string) (g : string -> string)
    (files : list UploadFile) :
  (forall s, pystr.lower (g s) = pystr.lower s) ->
  (forall f, allowed (renamed g f) <-> allowed f) /\
  (validate_files set_iter (renamed g <$> files) = Return tt <->
   validate_files set_iter files = Return tt).
Proof.
  intros Hg.
  assert (forall f, allowed (renamed g f) <-> allowed f) as Hallowed.
  { intros f. unfold allowed, extension, renamed. simpl.
    by rewrite <- !suffix_lower, Hg. }
  split; [exact Hallowed|].
  rewrite !validate_files_returns.
  assert (renamed g <$> files <> [] <-> files <> []) as ->
    by (by destruct files).
  rewrite Exists_fmap, Forall_fmap.
  assert (Exists (allowed ∘ renamed g) files <-> Exists allowed files) as ->.
  { apply Exists_proper; [|done]. intros f. apply Hallowed. }
  done.
Qed.

Lemma allowed_ignores_ascii_case_witness :
  (forall f, allowed (renamed pystr.lower f) <-> allowed f) /\
  (validate_files elements (renamed pystr.lower <$> stub.record_pair) = Return tt <->
   validate_files elements stub.record_pair = Return tt).
Proof.
  apply (allowed_ignores_ascii_case elements pystr.lower stub.record_pair).
  exact lower_idem.
Defined.

(** X5: an upload has an allowed extension exactly when the last component
    of its file name, in lower case, is a non-empty stem followed by [.dat]
    or by [.hea]. *)
Theorem allowed_iff_name_ends (f : UploadFile) :
  allowed f <->
  exists st,
    st <> "" /\
    (pystr.lower (pathlib.name (pathlib.Path (filename f))) = st ++ ".dat" \/
     pystr.lower (pathlib.name (pathlib.Path (filename f))) = st ++ ".hea").
Proof.
  unfold allowed. rewrite elem_of_ALLOWED_EXTENSIONS.
  unfold extension, pathlib.suffix.
  set (nm := pathlib.name (pathlib.Path (filename f))).
  split.
  - intros Hext.
    destruct (pathlib.suffix_index nm) as [i|] eqn:Hi;
      [|by destruct Hext].
    exists (pystr.lower (pystr.take i nm)).
    unfold pathlib.suffix_index in Hi.
    destruct (pystr.rfind "." nm) as [j|]; [|done].
    destruct (Nat.ltb_spec 0 j); [|done].
    destruct (Nat.ltb_spec j (String.length nm - 1)); [|done].
    simpl in Hi. injection Hi as ->. split.
    + intros Hempty.
      assert (String.length (pystr.lower (pystr.take i nm)) = i) as Hlen
        by (rewrite length_lower; apply length_take; lia).
      rewrite Hempty in Hlen. simpl in Hlen. lia.
    + rewrite <- (take_drop i nm) at 1 3. rewrite lower_app.
      destruct Hext as [-> | ->]; auto.
  - intros (st & Hst & Hnm).
    assert (exists ext, (ext = ".dat" \/ ext = ".hea") /\
                        pystr.lower nm = st ++ ext) as (ext & Hext & Hnm').
    { destruct Hnm as [Hnm | Hnm]; eauto. }
    pose proof (extension_of_name nm st ext Hst Hext Hnm') as Hsuf.
    destruct (pathlib.suffix_index nm) as [i|]; [|done].
    rewrite Hsuf. exact Hext.
Qed.

(** ** Paths and their strings *)

Lemma split_not_nil (c : ascii) (s : string) : pystr.split c s <> [].
Proof.
  induction s as [|a s IH]; simpl; [done|].
  destruct (Ascii.eqb a c); [done|]. by destruct (pystr.split c s).
Qed.

Lemma split_pieces (s : string) :
  Forall (fun w => pystr.split "/" w = [w]) (pystr.split "/" s).
Proof.
  induction s as [|a s IH]; simpl; [by repeat constructor|].
  destruct (Ascii.eqb a "/") eqn:Ha; [by constructor|].
  destruct (pystr.split "/" s) as [|w ws] eqn:Hs;
    [by apply split_not_nil in Hs|].
  apply Forall_cons in IH as [Hw Hws]. constructor; [|done].
  simpl. by rewrite Ha, Hw.
Qed.

Lemma Path_parsed (s : string) : parsed (pathlib.Path s).
Proof.
  unfold parsed, pathlib.Path. simpl.
  pose proof (split_pieces s) as Hall.
  induction Hall as [|w ws Hw _ IH]; simpl; [constructor|].
  destruct (pathlib.keep_part w) eqn:Hk; [|done].
  by constructor.
Qed.

Lemma truediv_parsed (p q : pathlib.PurePath) :
  parsed p -> parsed q -> parsed (pathlib.truediv p q).
Proof.
  intros Hp Hq. unfold pathlib.truediv. destruct (pathlib.root q); [done|].
  by apply Forall_app.
Qed.

Lemma split_piece_app (w t : string) :
  pystr.split "/" w = [w] ->
  pystr.split "/" (w ++ "/" ++ t) = w :: pystr.split "/" t.
Proof.
  induction w as [|a w IH]; intros Hw.
  - reflexivity.
  - change (String a w ++ "/" ++ t) with (String a (w ++ "/" ++ t)).
    simpl in Hw. simpl pystr.split at 1.
    destruct (Ascii.eqb a "/").
    + injection Hw as _ Hnil. by apply split_not_nil in Hnil.
    + destruct (pystr.split "/" w) as [|w0 ws] eqn:Hs;
        [by apply split_not_nil in Hs|].
      injection Hw as -> ->. by rewrite IH.
Qed.

Lemma split_join (ws : list string) :
  ws <> [] -> Forall (fun w => pystr.split "/" w = [w]) ws ->
  pystr.split "/" (pystr.join "/" ws) = ws.
Proof.
  intros Hne Hall. induction Hall as [|w ws Hw Hws IH]; [done|].
  destruct ws as [|w' ws]; [exact Hw|].
  change (pystr.join "/" (w :: w' :: ws))
    with (w ++ "/" ++ pystr.join "/" (w' :: ws)).
  rewrite (split_piece_app _ _ Hw). f_equal. by apply IH.
Qed.

Lemma filter_components (ws : list string) :
  Forall component ws -> List.filter pathlib.keep_part ws = ws.
Proof.
  induction 1 as [|w ws [Hk _] _ IH]; simpl; [done|]. by rewrite Hk, IH.
Qed.

Lemma join_not_rooted (ws : list string) :
  ws <> [] -> Forall component ws ->
  pystr.startswith "/" (pystr.join "/" ws) = false.
Proof.
  intros Hne Hall. destruct Hall as [|w ws [Hk Hw] _]; [done|].
  assert (pystr.startswith "/" w = false) as Hstart.
  { destruct w as [|a w]; [done|]. simpl in Hw.
    destruct (Ascii.eqb a "/") eqn:Ha.
    - injection Hw as _ Hnil. by apply split_not_nil in Hnil.
    - rewrite Ascii.eqb_sym in Ha. cbn [pystr.startswith]. by rewrite Ha. }
  destruct ws as [|w' ws]; [exact Hstart|].
  change (pystr.join "/" (w :: w' :: ws))
    with (w ++ "/" ++ pystr.join "/" (w' :: ws)).
  destruct w as [|a w]; [done|]. exact Hstart.
Qed.

Lemma Path_str (p : pathlib.PurePath) :
  parsed p -> pathlib.Path (pathlib.str p) = p.
Proof.
  destruct p as [rt ws]. unfold parsed. cbn [pathlib.parts]. intros Hall.
  assert (Forall (fun w => pystr.split "/" w = [w]) ws) as Hpieces.
  { eapply Forall_impl; [exact Hall|]. by intros w [_ ?]. }
  destruct rt, ws as [|w ws]; try reflexivity.
  - change (pathlib.str {| pathlib.root := true; pathlib.parts := w :: ws |})
      with (String "/" (pystr.join "/" (w :: ws))).
    pose proof (split_join (w :: ws)) as Hsplit.
    pose proof (filter_components (w :: ws) Hall) as Hfilter.
    set (j := pystr.join "/" (w :: ws)) in *.
    unfold pathlib.Path. cbn [pystr.startswith pystr.split].
    change (Ascii.eqb "/" "/") with true. cbn [andb].
    rewrite Hsplit by done. set (l := w :: ws) in *.
    cbn [List.filter pathlib.keep_part String.eqb negb andb].
    by rewrite Hfilter.
  - change (pathlib.str {| pathlib.root := false; pathlib.parts := w :: ws |})
      with (pystr.join "/" (w :: ws)).
    unfold pathlib.Path.
    rewrite (join_not_rooted (w :: ws)), (split_join (w :: ws)) by done.
    by rewrite (filter_components (w :: ws)).
Qed.

Lemma name_truediv (p q : pathlib.PurePath) :
  pathlib.parts q <> [] ->
  pathlib.name (pathlib.truediv p q) = pathlib.name q.
Proof.
  intros Hq. unfold pathlib.name, pathlib.truediv.
  destruct (pathlib.root q); [done|]. simpl.
  destruct (pathlib.parts q) as [|w ws] using rev_ind; [done|].
  by rewrite app_assoc, !last_last.
Qed.

(** X6: a path the handler forms is read back from its string unchanged,
    so the record path is the temporary directory joined with the stem of
    the path the first upload was saved at; and when the upload's file
    name has a component at all, that stem is the stem of the file name:
    its last component without its last suffix. *)
Theorem record_path_of_first_upload (tmpdirname fn : string) :
  let filepath := pathlib.truediv (pathlib.Path tmpdirname) (pathlib.Path fn) in
  pathlib.Path (pathlib.str filepath) = filepath /\
  record_path_of tmpdirname (pathlib.str filepath) =
    pathlib.str (pathlib.truediv (pathlib.Path tmpdirname)
                                 (pathlib.Path (pathlib.stem filepath))) /\
  (pathlib.parts (pathlib.Path fn) <> [] ->
   pathlib.stem filepath = pathlib.stem (pathlib.Path fn)).
Proof.
  intros filepath.
  assert (pathlib.Path (pathlib.str filepath) = filepath) as Hrt.
  { apply Path_str, truediv_parsed; apply Path_parsed. }
  split; [exact Hrt|]. split.
  - unfold record_path_of. by rewrite Hrt.
  - intros Hparts. unfold pathlib.stem, pathlib.suffix_index, filepath.
    by rewrite (name_truediv _ _ Hparts).
Qed.

(** ** Staging *)

Lemma write_file_cases (p : pathlib.PurePath) (data : list Byte.byte)
    (fs fs' : os.FS) (r : result unit) :
  os.write_file p data fs = (fs', r) ->
  (r = Return tt /\
   fs' = {| os.dirs := os.dirs fs;
            os.files := <[ os.resolve p := data ]> (os.files fs) |}) \/
  ((exists str_e, r = Raise (Exception str_e)) /\ fs' = fs).
Proof.
  unfold os.write_file.
  destruct (List.find _ _); repeat case_decide; intros [= <- <-]; eauto.
Qed.

Section Staging.

Variable tmpdirname : string.

(** What saving changes: no directory, and no file but at the places the
    uploads are saved at. *)
Lemma save_uploaded_files_frame (files : list UploadFile) (acc : list string)
    (fs fs1 : os.FS) (r : result (list string)) :
  save_uploaded_files tmpdirname files acc fs = (fs1, r) ->
  os.dirs fs1 = os.dirs fs /\
  forall k, k ∉ saved_at tmpdirname <$> files ->
            os.files fs1 !! k = os.files fs !! k.
Proof.
  revert acc fs. induction files as [|u rest IH]; intros acc fs.
  - by intros [= <- _].
  - simpl. unfold io_bind.
    destruct (os.write_file _ _ fs) as [fs' r'] eqn:Hw.
    apply write_file_cases in Hw as [[-> ->] | [[str_e ->] ->]].
    + intros [Hdirs Hfiles]%IH. split; [exact Hdirs|].
      intros k Hk. apply not_elem_of_cons in Hk as [Hne Hk].
      rewrite (Hfiles k Hk). simpl. by rewrite lookup_insert_ne.
    + by intros [= <- _].
Qed.

Lemma save_uploaded_files_returns (files : list UploadFile) (acc : list string)
    (fs fs1 : os.FS) (filenames : list string) :
  save_uploaded_files tmpdirname files acc fs = (fs1, Return filenames) ->
  filenames = (acc ++ (saved_name tmpdirname <$> files))%list /\
  (NoDup (saved_at tmpdirname <$> files) ->
   forall u, u ∈ files ->
             os.files fs1 !! saved_at tmpdirname u = Some (file u)).
Proof.
  revert acc fs. induction files as [|u rest IH]; intros acc fs.
  - intros [= _ <-]. split; [by rewrite app_nil_r|].
    intros _ u Hu. by apply elem_of_nil in Hu.
  - simpl. unfold io_bind.
    destruct (os.write_file _ _ fs) as [fs' r'] eqn:Hw.
    apply write_file_cases in Hw as [[-> ->] | [[str_e ->] ->]]; [|done].
    intros Hsave. pose proof (save_uploaded_files_frame _ _ _ _ _ Hsave)
      as [_ Hframe].
    apply IH in Hsave as [-> Hcontent]. split.
    + by rewrite <- app_assoc.
    + intros [Hfresh Hnodup]%NoDup_cons u' [-> | Hu']%elem_of_cons.
      * rewrite (Hframe _ Hfresh). simpl. apply lookup_insert_eq.
      * by apply Hcontent.
Qed.

End Staging.

(** X7: when the uploads have all been saved, the list of saved names is
    the names [str(Path(tmpdirname) / filename)] in upload order, no
    directory has changed, no file has changed but at the places the
    uploads were saved at, and, those places being distinct, each holds the
    bytes of its upload. *)
Theorem save_uploaded_files_verbatim (tmpdirname : string)
    (files : list UploadFile) (fs fs1 : os.FS) (filenames : list string) :
  save_uploaded_files tmpdirname files [] fs = (fs1, Return filenames) ->
  filenames = saved_name tmpdirname <$> files /\
  os.dirs fs1 = os.dirs fs /\
  (forall k, k ∉ saved_at tmpdirname <$> files ->
             os.files fs1 !! k = os.files fs !! k) /\
  (NoDup (saved_at tmpdirname <$> files) ->
   forall u, u ∈ files ->
             os.files fs1 !! saved_at tmpdirname u = Some (file u)).
Proof.
  intros Hsave.
  destruct (save_uploaded_files_frame _ _ _ _ _ _ Hsave) as [Hdirs Hframe].
  destruct (save_uploaded_files_returns _ _ _ _ _ _ Hsave) as [Hnames Hcontent].
  done.
Qed.

Lemma save_uploaded_files_verbatim_witness :
  [ "/tmp/tmpk3v9fq1a/rec100.dat"; "/tmp/tmpk3v9fq1a/rec100.hea" ]
    = saved_name "/tmp/tmpk3v9fq1a" <$> stub.record_pair /\
  os.dirs
    (save_uploaded_files "/tmp/tmpk3v9fq1a" stub.record_pair []
       (os.mkdir (pathlib.Path "/tmp/tmpk3v9fq1a") stub.fs0)).1
    = os.dirs (os.mkdir (pathlib.Path "/tmp/tmpk3v9fq1a") stub.fs0) /\
  (forall k, k ∉ saved_at "/tmp/tmpk3v9fq1a" <$> stub.record_pair ->
     os.files
       (save_uploaded_files "/tmp/tmpk3v9fq1a" stub.record_pair []
          (os.mkdir (pathlib.Path "/tmp/tmpk3v9fq1a") stub.fs0)).1 !! k
     = os.files (os.mkdir (pathlib.Path "/tmp/tmpk3v9fq1a") stub.fs0) !! k) /\
  (NoDup (saved_at "/tmp/tmpk3v9fq1a" <$> stub.record_pair) ->
   forall u, u ∈ stub.record_pair ->
     os.files
       (save_uploaded_files "/tmp/tmpk3v9fq1a" stub.record_pair []
          (os.mkdir (pathlib.Path "/tmp/tmpk3v9fq1a") stub.fs0)).1
       !! saved_at "/tmp/tmpk3v9fq1a" u = Some (file u)).
Proof.
  apply (save_uploaded_files_verbatim "/tmp/tmpk3v9fq1a" stub.record_pair
           (os.mkdir (pathlib.Path "/tmp/tmpk3v9fq1a") stub.fs0)).
  vm_compute. reflexivity.
Defined.

(** ** The file system around a request *)

Lemma rmtree_restores (p : pathlib.PurePath) (fs fs2 : os.FS) :
  (forall k, os.below (os.resolve p) k -> ~ os.exists_at fs k) ->
  os.dirs fs2 = {[ os.resolve p ]} ∪ os.dirs fs ->
  (forall k, ~ os.below (os.resolve p) k ->
             os.files fs2 !! k = os.files fs !! k) ->
  os.rmtree p fs2 = fs.
Proof.
  intros Hfresh Hdirs Hfiles. destruct fs as [ds fl]. unfold os.rmtree.
  simpl in *. f_equal.
  - apply leibniz_equiv, set_equiv. intros k.
    rewrite elem_of_filter, Hdirs, elem_of_union, elem_of_singleton. split.
    + intros [Hnot [-> | Hk]]; [|done]. by destruct Hnot.
    + intros Hk. split; [|by right].
      intros Hbelow. apply (Hfresh k Hbelow). by left.
  - apply map_eq. intros k. apply option_eq. intros data.
    rewrite map_lookup_filter_Some. simpl. split.
    + intros [Hk Hnot]. by rewrite <- (Hfiles k Hnot).
    + intros Hk.
      assert (~ os.below (os.resolve p) k) as Hnot.
      { intros Hbelow. apply (Hfresh k Hbelow). right. by eexists. }
      by rewrite (Hfiles k Hnot).
Qed.

Section HandlerMore.

Context {F : Type} `{Float64 F}.
Variable set_iter : gset string -> list string.
Variable mkdtemp : os.FS -> string + string.
Variable rdrecord : os.FS -> string -> string + Record_ F.
Variable predict : Tensor F -> string + gmap string (pyvalue F).
Variable PredictionResponse_init :
  PredictionResponse F -> string + PredictionResponse F.

#[local] Abbreviation try_ :=
  (predict_ecg_file_try set_iter mkdtemp rdrecord predict PredictionResponse_init).
#[local] Abbreviation route :=
  (post_predict_file set_iter mkdtemp rdrecord predict PredictionResponse_init).

(** The file system the [try] leaves: the one it found when validation
    fails or no directory can be made, and otherwise what removing the
    directory leaves of the file system after the saving. *)
Lemma predict_ecg_file_try_fs (files : list UploadFile) (fs : os.FS) :
  (try_ files fs).1 =
    match validate_files set_iter files, mkdtemp fs with
    | Return _, inr tmpdirname =>
        os.rmtree (pathlib.Path tmpdirname)
          (save_uploaded_files tmpdirname files []
             (os.mkdir (pathlib.Path tmpdirname) fs)).1
    | _, _ => fs
    end.
Proof.
  unfold predict_ecg_file_try, io_bind at 1, pure at 1.
  destruct (validate_files set_iter files) as [[]|e]; [|done].
  unfold with_TemporaryDirectory.
  destruct (mkdtemp fs) as [str_e|tmpdirname]; [done|].
  unfold io_bind at 1.
  destruct (save_uploaded_files _ _ _ _) as [fs1 [filenames|e]]; [|done].
  unfold io_bind, pure, read_ecg.
  destruct (first filenames); [|done].
  destruct (bind _ _); [|done].
  repeat (match goal with
          | |- context [match ?r with Return _ => _ | Raise _ => _ end] =>
              destruct r
          end; try done).
Qed.

(** The [try], for a request that gets as far as a signal. *)
Lemma predict_ecg_file_try_reads (files : list UploadFile) (fs fs1 : os.FS)
    (tmpdirname : string) (a : np.ndarray F) :
  staged_and_read set_iter mkdtemp rdrecord files fs tmpdirname fs1 a ->
  try_ files fs =
    (os.rmtree (pathlib.Path tmpdirname) fs1,
     prediction_of predict PredictionResponse_init (np.T a)).
Proof.
  intros (Hval & Hmk & filenames & filename0 & record & Hsave & Hfirst & Hrd & Hsig).
  unfold predict_ecg_file_try, io_bind at 1, pure at 1. rewrite Hval.
  unfold with_TemporaryDirectory. rewrite Hmk.
  unfold io_bind at 1. rewrite Hsave.
  unfold io_bind at 1, pure at 1. rewrite Hfirst.
  unfold io_bind at 1, read_ecg at 1. rewrite Hrd. simpl call. simpl bind.
  unfold p_signal_T. rewrite Hsig.
  unfold prediction_of, io_bind, pure, bind.
  repeat (match goal with
          | |- context [match ?r with Return _ => _ | Raise _ => _ end] =>
              destruct r
          end; try done).
Qed.

(** X8: a request whose uploads are all saved at or below the temporary
    directory, that directory being new, leaves the file system exactly as
    it found it, whatever the response. *)
Theorem request_leaves_no_trace (files : list UploadFile) (fs : os.FS)
    (tmpdirname : string) :
  mkdtemp fs = inr tmpdirname ->
  (forall k, os.below (os.resolve (pathlib.Path tmpdirname)) k ->
             ~ os.exists_at fs k) ->
  Forall (fun u => os.below (os.resolve (pathlib.Path tmpdirname))
                            (saved_at tmpdirname u)) files ->
  (route files fs).1 = fs.
Proof.
  intros Hmk Hfresh Hbelow.
  rewrite (proj2 (predict_ecg_file_fs set_iter mkdtemp rdrecord predict
                    PredictionResponse_init files fs)).
  rewrite predict_ecg_file_try_fs, Hmk.
  destruct (validate_files set_iter files) as [[]|e]; [|done].
  destruct (save_uploaded_files _ _ _ _) as [fs1 r] eqn:Hsave.
  apply save_uploaded_files_frame in Hsave as [Hdirs Hfiles]. simpl.
  apply rmtree_restores; [exact Hfresh | exact Hdirs |].
  intros k Hk. rewrite Hfiles; [done|].
  intros (u & -> & Hu)%list_elem_of_fmap. apply Hk.
  exact (proj1 (Forall_forall _ _) Hbelow u Hu).
Qed.

(** X9: when saving an upload fails, the response has status 500 and its
    detail is ["Internal server error: "] followed by the text of the
    error; the temporary directory is removed all the same. *)
Theorem staging_failure_is_500 (files : list UploadFile) (fs fs1 : os.FS)
    (tmpdirname : string) (e : exn) :
  validate_files set_iter files = Return tt ->
  mkdtemp fs = inr tmpdirname ->
  save_uploaded_files tmpdirname files []
    (os.mkdir (pathlib.Path tmpdirname) fs) = (fs1, Raise e) ->
  exists str_e,
    e = Exception str_e /\
    route files fs =
      (os.rmtree (pathlib.Path tmpdirname) fs1,
       {| status := 500;
          content := [ ("detail", JStr ("Internal server error: " ++ str_e)) ] |}).
Proof.
  intros Hval Hmk Hsave.
  destruct (save_uploaded_files_ordinary _ _ _ _ _ _ Hsave) as [str_e ->].
  exists str_e. split; [done|].
  unfold post_predict_file, predict_ecg_file, predict_ecg_file_try.
  unfold io_bind at 1, pure at 1. rewrite Hval.
  unfold with_TemporaryDirectory. rewrite Hmk.
  unfold io_bind at 1. by rewrite Hsave.
Qed.

(** X10: when the validator turns an upload set down, the response carries
    the status and the detail of the validator's error, the file system is
    untouched, and neither [tempfile] nor the reader nor the model has a
    say. *)
Theorem validation_failure_precedes_staging (files : list UploadFile)
    (fs : os.FS) (e : exn) :
  validate_files set_iter files = Raise e ->
  exists s d,
    e = HTTPException s d /\ (s = 400 \/ s = 413) /\
    route files fs = (fs, {| status := s; content := [ ("detail", JStr d) ] |}).
Proof.
  intros Hval.
  destruct (validate_files_client_error _ _ _ Hval) as [d [-> | ->]];
    eexists _, d; (split; [done|]); (split; [auto|]);
    unfold post_predict_file, predict_ecg_file, predict_ecg_file_try;
    unfold io_bind at 1, pure at 1; by rewrite Hval.
Qed.

(** X11: when the request gets as far as a signal, the model returns a
    dictionary and the statistics are computed, but the dictionary lacks
    [predicted_label] or [predicted_class_index], the response has status
    500 and its detail is ["Internal server error: "] followed by the
    missing key in quotes. *)
Theorem missing_result_key_is_500 (files : list UploadFile) (fs fs1 : os.FS)
    (tmpdirname key : string) (a : np.ndarray F)
    (d : gmap string (pyvalue F)) (stats : EcgStats F) :
  staged_and_read set_iter mkdtemp rdrecord files fs tmpdirname fs1 a ->
  predict (unsqueeze0 (torch_tensor (normalize (np.T a)))) = inr d ->
  calculate_ecg_stats (np.T a) = Return stats ->
  missing_key d = Some key ->
  route files fs =
    (os.rmtree (pathlib.Path tmpdirname) fs1,
     {| status := 500;
        content :=
          [ ("detail", JStr ("Internal server error: '" ++ key ++ "'")) ] |}).
Proof.
  intros Hreads Hpred Hstats Hkey.
  unfold post_predict_file, predict_ecg_file.
  rewrite (predict_ecg_file_try_reads _ _ _ _ _ Hreads).
  unfold prediction_of. rewrite Hpred, Hstats. simpl call. simpl bind.
  unfold missing_key in Hkey. unfold getitem.
  destruct (d !! "predicted_label") as [label|]; simpl.
  - destruct (d !! "predicted_class_index") as [index|]; [done|].
    by injection Hkey as <-.
  - by injection Hkey as <-.
Qed.

(** X12: when the request gets as far as a signal and every later step
    succeeds, the response has status 200 and is the JSON of the
    [PredictionResponse] built from the model's label and index, the
    model's confidence or 0.0 when the dictionary has none, the statistics
    of the signal as read (not as normalised) and the fixed message; the
    model is run on the normalised signal. *)
Theorem prediction_response (files : list UploadFile) (fs fs1 : os.FS)
    (tmpdirname : string) (a : np.ndarray F)
    (d : gmap string (pyvalue F)) (stats : EcgStats F)
    (label index : pyvalue F) (response : PredictionResponse F) :
  staged_and_read set_iter mkdtemp rdrecord files fs tmpdirname fs1 a ->
  predict (unsqueeze0 (torch_tensor (normalize (np.T a)))) = inr d ->
  calculate_ecg_stats (np.T a) = Return stats ->
  d !! "predicted_label" = Some label ->
  d !! "predicted_class_index" = Some index ->
  PredictionResponse_init
    {| success := true;
       predicted_class := label;
       predicted_class_index := index;
       confidence := default (PyFloat (f_of_nat 0)) (d !! "confidence");
       ecg_stats := stats;
       message := "ECG classification completed successfully" |}
    = inr response ->
  route files fs =
    (os.rmtree (pathlib.Path tmpdirname) fs1,
     {| status := 200; content := json_of_prediction response |}).
Proof.
  intros Hreads Hpred Hstats Hlabel Hindex Hinit.
  unfold post_predict_file, predict_ecg_file.
  rewrite (predict_ecg_file_try_reads _ _ _ _ _ Hreads).
  unfold prediction_of. rewrite Hpred, Hstats. simpl call. simpl bind.
  unfold getitem. rewrite Hlabel, Hindex. simpl.
  assert (get d "confidence" (PyFloat (f_of_nat 0))
          = default (PyFloat (f_of_nat 0)) (d !! "confidence")) as ->.
  { unfold get. by destruct (d !! "confidence"). }
  by rewrite Hinit.
Qed.

End HandlerMore.

Lemma stub_tmp_resolves :
  os.resolve (pathlib.Path "/tmp/tmpk3v9fq1a") = stub.tmp_path.
Proof. vm_compute. reflexivity. Qed.

Lemma stub_staged_and_read :
  staged_and_read elements stub.mkdtemp stub.rdrecord stub.record_pair stub.fs0
    "/tmp/tmpk3v9fq1a" stub.fs_saved stub.p_signal0.
Proof.
  split; [vm_compute; reflexivity|]. split; [reflexivity|].
  exists [ "/tmp/tmpk3v9fq1a/rec100.dat"; "/tmp/tmpk3v9fq1a/rec100.hea" ],
         "/tmp/tmpk3v9fq1a/rec100.dat",
         {| p_signal := Some stub.p_signal0 |}.
  split; [vm_compute; reflexivity|]. split; [reflexivity|].
  split; [vm_compute; reflexivity | reflexivity].
Qed.

Lemma request_leaves_no_trace_witness :
  (stub.route stub.predict stub.record_pair stub.fs0).1 = stub.fs0.
Proof.
  apply (request_leaves_no_trace elements stub.mkdtemp stub.rdrecord stub.predict
           stub.PredictionResponse_init stub.record_pair stub.fs0
           "/tmp/tmpk3v9fq1a").
  - reflexivity.
  - rewrite stub_tmp_resolves. intros k [k' ->] [Hdir | [data Hfile]].
    + unfold stub.fs0 in Hdir. simpl in Hdir.
      apply elem_of_union in Hdir as [Hdir | Hdir];
        apply elem_of_singleton in Hdir; discriminate Hdir.
    + unfold stub.fs0 in Hfile. simpl in Hfile.
      by rewrite lookup_empty in Hfile.
  - rewrite stub_tmp_resolves. repeat constructor.
    + exists ["rec100.dat"]. vm_compute. reflexivity.
    + exists ["rec100.hea"]. vm_compute. reflexivity.
Defined.

Lemma staging_failure_is_500_witness :
  exists str_e,
    Exception "[Errno 2] No such file or directory: '/tmp/tmpk3v9fq1a/sub/rec100.hea'"
      = Exception str_e /\
    stub.route stub.predict stub.in_subdirectory stub.fs0 =
      (os.rmtree (pathlib.Path "/tmp/tmpk3v9fq1a")
         (os.mkdir (pathlib.Path "/tmp/tmpk3v9fq1a") stub.fs0),
       {| status := 500;
          content := [ ("detail", JStr ("Internal server error: " ++ str_e)) ] |}).
Proof.
  apply (staging_failure_is_500 elements stub.mkdtemp stub.rdrecord stub.predict
           stub.PredictionResponse_init stub.in_subdirectory stub.fs0
           (os.mkdir (pathlib.Path "/tmp/tmpk3v9fq1a") stub.fs0)
           "/tmp/tmpk3v9fq1a").
  - vm_compute. reflexivity.
  - reflexivity.
  - vm_compute. reflexivity.
Defined.

Lemma validation_failure_precedes_staging_witness :
  exists s d,
    extension_error elements = HTTPException s d /\ (s = 400 \/ s = 413) /\
    stub.route stub.predict stub.oversized_scan stub.fs0 =
      (stub.fs0, {| status := s; content := [ ("detail", JStr d) ] |}).
Proof.
  apply (validation_failure_precedes_staging elements stub.mkdtemp stub.rdrecord
           stub.predict stub.PredictionResponse_init stub.oversized_scan
           stub.fs0 (extension_error elements)).
  vm_compute. reflexivity.
Defined.

Lemma missing_result_key_is_500_witness :
  stub.route stub.predict_without_label stub.record_pair stub.fs0 =
    (os.rmtree (pathlib.Path "/tmp/tmpk3v9fq1a") stub.fs_saved,
     {| status := 500;
        content :=
          [ ("detail",
             JStr ("Internal server error: '" ++ "predicted_label" ++ "'")) ] |}).
Proof.
  apply (missing_result_key_is_500 elements stub.mkdtemp stub.rdrecord
           stub.predict_without_label stub.PredictionResponse_init
           stub.record_pair stub.fs0 stub.fs_saved "/tmp/tmpk3v9fq1a"
           "predicted_label" stub.p_signal0
           (<[ "predicted_class_index" := PyInt 0 ]> ∅) stub.stats0).
  - exact stub_staged_and_read.
  - reflexivity.
  - vm_compute. reflexivity.
  - vm_compute. reflexivity.
Defined.

Lemma prediction_response_witness :
  stub.route stub.predict stub.record_pair stub.fs0 =
    (os.rmtree (pathlib.Path "/tmp/tmpk3v9fq1a") stub.fs_saved,
     {| status := 200; content := json_of_prediction stub.response0 |}).
Proof.
  apply (prediction_response elements stub.mkdtemp stub.rdrecord stub.predict
           stub.PredictionResponse_init stub.record_pair stub.fs0 stub.fs_saved
           "/tmp/tmpk3v9fq1a" stub.p_signal0
           (<[ "predicted_label" := PyStr "NORM" ]>
              (<[ "predicted_class_index" := PyInt 0 ]> ∅))
           stub.stats0 (PyStr "NORM") (PyInt 0) stub.response0).
  - exact stub_staged_and_read.
  - reflexivity.
  - vm_compute. reflexivity.
  - vm_compute. reflexivity.
  - vm_compute. reflexivity.
  - vm_compute. reflexivity.
Defined.

(** ** Arrays *)

Section ArraysMore.

Context {F : Type} `{Float64 F}.

Lemma column_lookup (m j i : nat) (rs : list (list F)) :
  Forall (fun r => length r = m) rs -> (j < m)%nat ->
  np.column j rs !! i = (r ← rs !! i; r !! j).
Proof.
  intros Hall Hj. revert i. unfold np.column.
  induction Hall as [|r rs Hr _ IH]; intros i; [done|].
  rewrite bind_cons.
  destruct (lookup_lt_is_Some_2 r j) as [x Hx]; [lia|].
  rewrite Hx. simpl. destruct i as [|i]; simpl; [done|]. apply IH.
Qed.

Lemma column_length (m j : nat) (rs : list (list F)) :
  Forall (fun r => length r = m) rs -> (j < m)%nat ->
  length (np.column j rs) = length rs.
Proof.
  intros Hall Hj. unfold np.column.
  induction Hall as [|r rs Hr _ IH]; [done|].
  rewrite bind_cons.
  destruct (lookup_lt_is_Some_2 r j) as [x Hx]; [lia|].
  rewrite Hx. simpl. by rewrite IH.
Qed.

(** X13: the transpose of a well-formed matrix is well formed, has the two
    dimensions exchanged, and holds at [(j, i)] what the matrix holds at
    [(i, j)]: the samples-by-leads matrix of the reader becomes the
    leads-by-samples matrix the handler works on. *)
Theorem transpose_entries (A : np.ndarray F) :
  np.wf A ->
  np.wf (np.T A) /\
  np.shape (np.T A) = (snd (np.shape A), fst (np.shape A)) /\
  forall i j, np.get (np.T A) j i = np.get A i j.
Proof.
  intros [Hn Hrows]. split; [|split; [done|]].
  - split.
    + unfold np.T. simpl. by rewrite length_fmap, length_seq.
    + unfold np.T. simpl. apply Forall_fmap, Forall_seq.
      intros j [_ Hj]. simpl. rewrite (column_length _ _ _ Hrows) by lia.
      exact Hn.
  - intros i j. unfold np.get, np.T. simpl. rewrite list_lookup_fmap.
    destruct (decide (j < snd (np.shape A))%nat) as [Hj | Hj].
    + rewrite lookup_seq_lt by done. simpl.
      by apply (column_lookup (snd (np.shape A))).
    + rewrite lookup_seq_ge by lia. simpl.
      destruct (np.rows A !! i) as [r|] eqn:Hr; simpl; [|done].
      pose proof (proj1 (Forall_lookup _ _) Hrows i r Hr) as Hlen.
      simpl in Hlen. symmetry. apply lookup_ge_None_2. lia.
Qed.

Lemma length_concat_rows_any (m : nat) (rs : list (list F)) :
  Forall (fun r => length r = m) rs ->
  length (concat rs) = (length rs * m)%nat.
Proof.
  induction 1 as [|r rs Hr _ IH]; simpl; [done|].
  by rewrite length_app, IH, Hr.
Qed.

(** X14: the statistics of a well-formed matrix are returned exactly when
    it has an entry; for a matrix of no entry (no lead, or leads of no
    sample) the maximum has nothing to start from and the calculator
    raises, the mean and the deviation having been computed before. *)
Theorem calculate_ecg_stats_returns_iff (A : np.ndarray F) :
  np.wf A ->
  (np.size A = 0%nat ->
   calculate_ecg_stats A =
     Raise (Exception
              "zero-size array to reduction operation maximum which has no identity")) /\
  (np.size A <> 0%nat ->
   exists x rest,
     concat (np.rows A) = x :: rest /\
     calculate_ecg_stats A =
       Return {| num_leads := fst (np.shape A);
                 signal_length := snd (np.shape A);
                 mean_amplitude := np.mean A;
                 std_amplitude := np.std A;
                 max_amplitude := foldl f_maximum x rest;
                 min_amplitude := foldl f_minimum x rest |}).
Proof.
  intros [Hn Hrows].
  assert (length (concat (np.rows A)) = np.size A) as Hlen.
  { rewrite (length_concat_rows_any _ _ Hrows), Hn. reflexivity. }
  unfold calculate_ecg_stats, np.max, np.min.
  destruct (concat (np.rows A)) as [|x rest]; simpl in *; split.
  - done.
  - intros Hne. by rewrite <- Hlen in Hne.
  - intros Hz. rewrite Hz in Hlen. discriminate Hlen.
  - intros _. by exists x, rest.
Qed.

End ArraysMore.

Lemma transpose_entries_witness :
  np.wf (np.T stub.p_signal0) /\
  np.shape (np.T stub.p_signal0)
    = (snd (np.shape stub.p_signal0), fst (np.shape stub.p_signal0)) /\
  forall i j, np.get (np.T stub.p_signal0) j i = np.get stub.p_signal0 i j.
Proof.
  apply (transpose_entries stub.p_signal0).
  split; [reflexivity | repeat constructor].
Defined.

Lemma calculate_ecg_stats_returns_iff_witness :
  (np.size stub.flat_lead = 0%nat ->
   calculate_ecg_stats stub.flat_lead =
     Raise (Exception
              "zero-size array to reduction operation maximum which has no identity")) /\
  (np.size stub.flat_lead <> 0%nat ->
   exists x rest,
     concat (np.rows stub.flat_lead) = x :: rest /\
     calculate_ecg_stats stub.flat_lead =
       Return {| num_leads := fst (np.shape stub.flat_lead);
                 signal_length := snd (np.shape stub.flat_lead);
                 mean_amplitude := np.mean stub.flat_lead;
                 std_amplitude := np.std stub.flat_lead;
                 max_amplitude := foldl f_maximum x rest;
                 min_amplitude := foldl f_minimum x rest |}).
Proof.
  apply (calculate_ecg_stats_returns_iff stub.flat_lead).
  split; [reflexivity | repeat constructor].
Defined.

(** ** The normaliser in exact arithmetic *)

Section NormalizeReal.

Local Open Scope R_scope.

#[local] Abbreviation sum := (foldr Rplus 0).

Lemma sum_shift (c : R) (xs : list R) :
  sum ((fun x => x + c) <$> xs) = sum xs + INR (length xs) * c.
Proof.
  induction xs as [|x xs IH].
  - simpl. ring.
  - rewrite fmap_cons. cbn [foldr length]. rewrite IH, S_INR. ring.
Qed.

Lemma mean1_shift (c : R) (xs : list R) :
  xs <> [] -> np.mean1 ((fun x => x + c) <$> xs) = np.mean1 xs + c.
Proof.
  intros Hne. pose proof (INR_length_pos xs Hne) as Hn.
  unfold np.mean1. simpl. rewrite sum_shift, length_fmap. field. lra.
Qed.

Lemma std1_shift (c : R) (xs : list R) :
  np.std1 ((fun x => x + c) <$> xs) = np.std1 xs.
Proof.
  destruct (decide (xs = [])) as [-> | Hne]; [done|].
  pose proof (mean1_shift c xs Hne) as Hm. unfold np.mean1 in Hm.
  unfold np.std1. simpl in *. rewrite Hm, length_fmap.
  set (m := foldr Rplus 0 xs / INR (length xs)).
  assert ((fun a => a - (m + c)) <$> ((fun x => x + c) <$> xs)
          = (fun a => a - m) <$> xs) as ->; [|done].
  rewrite <- list_fmap_compose. apply list_fmap_ext. intros _ x _. simpl. ring.
Qed.

Lemma standardized_shift (c : R) (r : list R) :
  standardized ((fun x => x + c) <$> r) = standardized r.
Proof.
  destruct (decide (r = [])) as [-> | Hne]; [done|].
  unfold standardized. rewrite (mean1_shift c r Hne), std1_shift.
  rewrite <- list_fmap_compose. apply list_fmap_ext. intros _ x _. simpl.
  f_equal. ring.
Qed.

Lemma square_le_sum_squares (x : R) (xs : list R) :
  x ∈ xs -> x * x <= sum ((fun a => a * a) <$> xs).
Proof.
  induction 1 as [x xs | x y xs _ IH]; rewrite fmap_cons; cbn [foldr].
  - pose proof (sum_squares_nonneg xs). lra.
  - pose proof (Rle_0_sqr y) as Hy. unfold Rsqr in Hy. lra.
Qed.

(** The square of the deviation of a row, times the sample count, is the
    sum of the squared distances to the mean. *)
Lemma std1_square (r : list R) :
  r <> [] ->
  INR (length r) * (np.std1 r * np.std1 r)
  = sum ((fun a => a * a) <$> ((fun a => a - np.mean1 r) <$> r)).
Proof.
  intros Hne. pose proof (INR_length_pos r Hne) as Hn.
  assert (np.std1 r =
          sqrt (sum ((fun a => a * a) <$> ((fun a => a - np.mean1 r) <$> r))
                  / INR (length r))) as -> by reflexivity.
  pose proof (sum_squares_nonneg ((fun a => a - np.mean1 r) <$> r)) as HS.
  set (S := sum _) in *.
  rewrite sqrt_sqrt.
  - field. lra.
  - apply Rmult_le_pos; [exact HS|]. apply Rlt_le, Rinv_0_lt_compat, Hn.
Qed.

Lemma standardized_entry_bound (r : list R) (y : R) :
  y ∈ standardized r -> y * y < INR (length r).
Proof.
  intros Hy.
  assert (r <> []) as Hne by (intros ->; by apply elem_of_nil in Hy).
  pose proof (INR_length_pos r Hne) as Hn.
  pose proof (std1_nonneg r) as Hs.
  pose proof (std1_square r Hne) as Hsq.
  unfold standardized in Hy. apply list_elem_of_fmap in Hy as (x & -> & Hx).
  change (f_div (f_sub x (np.mean1 r)) (f_add (np.std1 r) f_1e_8))
    with ((x - np.mean1 r) / (np.std1 r + 1 / 100000000)).
  assert ((x - np.mean1 r) * (x - np.mean1 r)
          <= sum ((fun a => a * a) <$> ((fun a => a - np.mean1 r) <$> r)))
    as Hle.
  { apply square_le_sum_squares, list_elem_of_fmap. by exists x. }
  rewrite <- Hsq in Hle.
  set (s := np.std1 r) in *. set (n := INR (length r)) in *.
  set (d := s + 1 / 100000000). set (e := x - np.mean1 r) in *.
  assert (0 < d) as Hd by (unfold d; lra).
  assert (s * s < d * d) as Hsd by (unfold d; nra).
  assert (e * e < n * (d * d)) as Hlt by nra.
  apply (Rmult_lt_reg_r (d * d)); [nra|].
  replace (e / d * (e / d) * (d * d)) with (e * e) by (field; lra).
  exact Hlt.
Qed.

End NormalizeReal.

(** X15: in exact arithmetic the normaliser takes no notice of a constant
    added to a lead: a row shifted by [c] is standardised to the same row,
    and a matrix to which [c] is added is normalised to the same matrix. *)
Theorem normalize_ignores_offset (W : np.ndarray R) (c : R) :
  np.wf W ->
  (forall r : list R,
     standardized ((fun x => x + c)%R <$> r) = standardized r) /\
  normalize (np.add_scalar W c) = normalize W.
Proof.
  intros HW. split; [intros r; apply standardized_shift|].
  assert (np.wf (np.add_scalar W c)) as HWc.
  { destruct HW as [Hn Hrows]. split; simpl.
    - by rewrite length_fmap.
    - apply Forall_fmap. eapply Forall_impl; [exact Hrows|].
      intros r Hr. simpl. by rewrite length_fmap. }
  pose proof (normalize_rows _ HWc) as Hc.
  pose proof (normalize_rows _ HW) as Hw.
  destruct (normalize (np.add_scalar W c)) as [sh1 rs1] eqn:H1.
  destruct (normalize W) as [sh2 rs2] eqn:H2.
  assert (sh1 = sh2) as ->.
  { change sh1 with (np.shape {| np.shape := sh1; np.rows := rs1 |}).
    change sh2 with (np.shape {| np.shape := sh2; np.rows := rs2 |}).
    by rewrite <- H1, <- H2. }
  simpl in Hc, Hw. f_equal. rewrite Hc, Hw.
  rewrite <- list_fmap_compose. apply list_fmap_ext. intros _ r _. simpl.
  change (fun a : R => f_add a c) with (fun x : R => (x + c)%R).
  apply standardized_shift.
Qed.

Lemma normalize_ignores_offset_witness :
  (forall r : list R,
     standardized ((fun x => x + 5)%R <$> r) = standardized r) /\
  normalize (np.add_scalar stub.two_leads_R 5%R) = normalize stub.two_leads_R.
Proof.
  apply (normalize_ignores_offset stub.two_leads_R 5%R).
  split; [reflexivity | repeat constructor].
Defined.

(** X16: in exact arithmetic every entry of the normalised matrix is, in
    absolute value, below the square root of the number of samples per
    lead: its square is below that number. *)
Theorem normalize_entries_bounded (W : np.ndarray R) (i j : nat) (y : R) :
  np.wf W ->
  np.get (normalize W) i j = Some y ->
  (y * y < INR (snd (np.shape W)))%R.
Proof.
  intros HW Hy. pose proof HW as [_ Hrows].
  unfold np.get in Hy. rewrite (normalize_rows W HW), list_lookup_fmap in Hy.
  destruct (np.rows W !! i) as [r|] eqn:Hr; simpl in Hy; [|done].
  pose proof (proj1 (Forall_lookup _ _) Hrows i r Hr) as Hlen.
  simpl in Hlen. rewrite <- Hlen.
  apply standardized_entry_bound. by eapply list_elem_of_lookup_2.
Qed.

Lemma normalize_entries_bounded_witness :
  (0 * 0 < INR (snd (np.shape stub.flat_lead_R)))%R.
Proof.
  apply (normalize_entries_bounded stub.flat_lead_R 0 0 0%R).
  - split; [reflexivity | repeat constructor].
  - unfold np.get. rewrite normalize_rows
      by (split; [reflexivity | repeat constructor]).
    simpl. f_equal.
    change ((1 - np.mean1 [1; 1]) / (np.std1 [1; 1] + 1 / 100000000) = 0)%R.
    rewrite (mean1_constant 1 [1; 1]%R); [| done | repeat constructor].
    unfold Rdiv. ring.
Defined.

(** ** Which failure gives which status *)

Lemma validate_files_raises_cases
    (set_iter : gset string -> list string) (files : list UploadFile) (e : exn) :
  validate_files set_iter files = Raise e ->
  e = no_files_error \/ e = extension_error set_iter \/
  exists f, f ∈ files /\ e = too_large_error f.
Proof.
  unfold validate_files. destruct files as [|f0 rest].
  - simpl. intros [= <-]. by left.
  - simpl check_not_empty. simpl bind.
    destruct (check_extensions_cases set_iter (f0 :: rest)) as [-> | ->];
      simpl bind.
    + intros [= <-]. right. by left.
    + intros Hs. apply (check_sizes_raises (f0 :: rest)) in Hs. by do 2 right.
Qed.

Section StatusMore.

Context {F : Type} `{Float64 F}.
Variable set_iter : gset string -> list string.
Variable mkdtemp : os.FS -> string + string.
Variable rdrecord : os.FS -> string -> string + Record_ F.
Variable predict : Tensor F -> string + gmap string (pyvalue F).
Variable PredictionResponse_init :
  PredictionResponse F -> string + PredictionResponse F.

#[local] Abbreviation try_ :=
  (predict_ecg_file_try set_iter mkdtemp rdrecord predict PredictionResponse_init).
#[local] Abbreviation route :=
  (post_predict_file set_iter mkdtemp rdrecord predict PredictionResponse_init).

(** Once validation has passed, the [try] raises a 400 (from the read) or
    an ordinary exception. *)
Lemma staging_scope_raises (files : list UploadFile) (fs fs' : os.FS) (e : exn) :
  validate_files set_iter files = Return tt ->
  try_ files fs = (fs', Raise e) ->
  (exists d, e = HTTPException 400 d) \/ ordinary e.
Proof.
  intros Hval. unfold predict_ecg_file_try, io_bind at 1, pure at 1.
  rewrite Hval. intros Htry. revert Htry.
  apply (with_TemporaryDirectory_raises mkdtemp
           (fun e => (exists d, e = HTTPException 400 d) \/ ordinary e));
    [by right|].
  intros tmpdirname. apply raises_only_bind.
  { eapply raises_only_weaken; [|apply save_uploaded_files_ordinary]. by right. }
  intros filenames. apply raises_only_bind.
  { apply raises_only_pure. intros e' He. right.
    destruct filenames; [|done]. injection He as <-. by eexists. }
  intros filename0. apply raises_only_bind.
  { intros fs0 fs1 e'. unfold read_ecg.
    destruct (bind _ _); intros [= _ <-]. left. by eexists. }
  intros ecg_data. apply raises_only_bind.
  { apply raises_only_pure. intros e' He. right. by apply call_ordinary in He. }
  intros result_. apply raises_only_bind.
  { apply raises_only_pure. intros e' He. right.
    by apply calculate_ecg_stats_ordinary in He. }
  intros stats. apply raises_only_bind.
  { apply raises_only_pure. intros e' He. right. by apply getitem_ordinary in He. }
  intros label. apply raises_only_bind.
  { apply raises_only_pure. intros e' He. right. by apply getitem_ordinary in He. }
  intros index. apply raises_only_pure. intros e' He. right.
  by apply call_ordinary in He.
Qed.

(** X17: the response has status 413 exactly when the validator raised on
    the size of one of the uploads; a 413 therefore means that nothing was
    staged, read or predicted. *)
Theorem status_413_iff_too_large (files : list UploadFile) (fs : os.FS) :
  status (route files fs).2 = 413 <->
  exists f, f ∈ files /\
            validate_files set_iter files = Raise (too_large_error f).
Proof.
  unfold post_predict_file, predict_ecg_file. split.
  - destruct (validate_files set_iter files) as [[]|e] eqn:Hval.
    + pose proof (staging_scope_raises files fs) as Hraises.
      destruct (try_ files fs) as [fs' [r | [s d | str_e]]]; simpl; try done.
      destruct (Hraises fs' _ Hval eq_refl) as [[d' [= -> _]] | [m [=]]]. done.
    + unfold predict_ecg_file_try, io_bind at 1, pure at 1. rewrite Hval.
      destruct (validate_files_raises_cases _ _ _ Hval)
        as [-> | [-> | (f & Hf & ->)]]; simpl; try done.
      intros _. by exists f.
  - intros (f & _ & Hval).
    unfold predict_ecg_file_try, io_bind at 1, pure at 1. by rewrite Hval.
Qed.

End StatusMore.
